(** * Task manager: REST handlers, schema, API client and React views

    A shallow embedding of the task-management application:

    - [Js]          the fragment of JavaScript the sources rely on: strings as
                    UTF-16 code units with [trim], Numbers as binary64 with
                    [Math_round], values with truthiness and [||], and the
                    stable [Array_sort];
    - [Schema]      the Mongoose schema of a task (models/task);
    - [Model]       the operations of the Mongoose model on the collection;
    - [Routes]      the five Express handlers (routes/tasks);
    - [TaskService] the axios response interceptor and the API functions;
    - [App]         the state container and its create/update handlers;
    - [TaskForm]    form validation, submission and the populate effect;
    - [TaskList]    the filter and the four sort orders;
    - [TaskStats]   the completion percentage.

    Definitions come first, the verified properties follow. *)

From Stdlib Require Import ZArith NArith List SpecFloat.
From stdpp Require Import base list sorting strings gmap.

Set Warnings "-register-all".
Local Open Scope Z_scope.

(* ===================================================================== *)
(** ** The JavaScript fragment *)
(* ===================================================================== *)

Module Js.

(** A JavaScript string is a sequence of UTF-16 code units. *)
Definition jsstring := list N.

(** Embedding of an ASCII literal of the sources. *)
Fixpoint str (s : string) : jsstring :=
  match s with
  | EmptyString => []
  | String c s' => Ascii.N_of_ascii c :: str s'
  end.

(** WhiteSpace and LineTerminator code points, the characters removed by
    [String.prototype.trim]: TAB, LF, VT, FF, CR, SP, NBSP, U+1680,
    U+2000..U+200A, LS, PS, U+202F, U+205F, U+3000 and the BOM. *)
Definition isWhiteSpace (c : N) : bool :=
  ((c =? 9) || (c =? 10) || (c =? 11) || (c =? 12) || (c =? 13) || (c =? 32)
   || (c =? 160) || (c =? 5760) || ((8192 <=? c) && (c <=? 8202))
   || (c =? 8232) || (c =? 8233) || (c =? 8239) || (c =? 8287)
   || (c =? 12288) || (c =? 65279))%N.

Fixpoint trimStart (s : jsstring) : jsstring :=
  match s with
  | [] => []
  | c :: s' => if isWhiteSpace c then trimStart s' else s
  end.

Definition trimEnd (s : jsstring) : jsstring := rev (trimStart (rev s)).

(** [s.trim()] *)
Definition trim (s : jsstring) : jsstring := trimEnd (trimStart s).

(** A string that consists of white space only (the empty string included). *)
Definition blank (s : jsstring) : Prop := Forall (fun c => isWhiteSpace c = true) s.

(** *** Numbers: IEEE 754 binary64 *)

Definition number := spec_float.
Definition prec : Z := 53.
Definition emax : Z := 1024.

Definition num_of_Z (n : Z) : number := binary_normalize prec emax n 0 false.
Definition num_of_nat (n : nat) : number := num_of_Z (Z.of_nat n).
Definition num_div : number -> number -> number := SFdiv prec emax.
Definition num_mul : number -> number -> number := SFmul prec emax.

(** [Math.round(x)]: the integral Number closest to [x], ties towards
    +infinity; NaN, the infinities and the zeros are returned unchanged, and
    a result of zero keeps the sign of [x].  A finite [x] is [±m * 2^e]; with
    [e >= 0] it is integral already, otherwise the result is
    [floor (x + 1/2)], computed exactly on integers. *)
Definition Math_round (x : number) : number :=
  match x with
  | S754_finite s m e =>
      if 0 <=? e then x
      else
        let v := if s then Z.neg m else Z.pos m in
        let n := (2 * v + 2 ^ (- e)) / 2 ^ (1 - e) in
        if n =? 0 then S754_zero s else num_of_Z n
  | _ => x
  end.

(** *** Values, truthiness and property access *)

Inductive value :=
  | JUndefined
  | JNull
  | JBool (b : bool)
  | JNumber (x : number)
  | JString (s : jsstring)
  | JArray (l : list value)
  | JObject (fields : gmap string value).

(** ToBoolean *)
Definition truthy (v : value) : bool :=
  match v with
  | JUndefined | JNull => false
  | JBool b => b
  | JNumber (S754_zero _) | JNumber S754_nan => false
  | JNumber _ => true
  | JString s => negb (bool_decide (s = []))
  | JArray _ | JObject _ => true
  end.

(** [a || b] on already evaluated operands. *)
Definition or_else (a b : value) : value := if truthy a then a else b.

(** Errors.  Besides the built-in ones the sources meet the errors of the
    ORM: a value that does not cast to the type of its path, the failed
    validators of a document (path and validator), and the violation of the
    unique index on [_id]. *)
Inductive validator := Required | Enum.

Inductive exn :=
  | TypeError (msg : string)
  | Error (msg : string)
  | CastError (path : string) (raw : jsstring)
  | ValidationError (failed : list (string * validator))
  | DuplicateKey (id : N).

(** [error.message] of an [Error] built by the sources themselves. *)
Definition message_of (e : exn) : option string :=
  match e with
  | TypeError msg | Error msg => Some msg
  | _ => None
  end.

Inductive completion (A : Type) :=
  | Return (a : A)
  | Throw (e : exn).
Arguments Return {A} a.
Arguments Throw {A} e.

(** Sequencing: a thrown error skips the rest of the [try] block. *)
Definition bind {A B} (m : completion A) (k : A -> completion B) : completion B :=
  match m with
  | Return a => k a
  | Throw e => Throw e
  end.

(** [v.k] for a property name [k] that is neither an array index nor a
    built-in property of a primitive wrapper or of an array (such as
    [length]): reading it off [undefined] or [null] throws, an object
    answers with its own field, everything else with [undefined]. *)
Definition getProp (v : value) (k : string) : completion value :=
  match v with
  | JUndefined | JNull =>
      Throw (TypeError "Cannot read properties of undefined or null")
  | JObject fields => Return (default JUndefined (fields !! k))
  | _ => Return JUndefined
  end.

(** *** [Array.prototype.sort]

    The sort is stable, and for a consistent comparator its result is
    determined: elements are ordered by the sign of [cmp], and elements that
    compare equal keep their order.  Inserting the elements from the right,
    each one in front of the first element it does not follow, computes that
    permutation. *)
Section Sort.
Context {A : Type} (cmp : A -> A -> Z).

Fixpoint sort_insert (x : A) (l : list A) : list A :=
  match l with
  | [] => [x]
  | y :: l' => if cmp x y <=? 0 then x :: y :: l' else y :: sort_insert x l'
  end.

Definition Array_sort (l : list A) : list A := foldr sort_insert [] l.
End Sort.

End Js.

Notation "'let*' x ':=' m 'in' k" := (Js.bind m (fun x => k))
  (at level 10, x pattern, m at level 100, k at level 200).

(* ===================================================================== *)
(** ** The task schema (models/task) *)
(* ===================================================================== *)

Module Schema.
Import Js.

(** The key the persistence layer assigns: a 96-bit ObjectId. *)
Definition ObjectId := N.

(** [enum: ['low', 'medium', 'high']] *)
Inductive Priority := low | medium | high.

#[global] Instance Priority_eq_dec : EqDecision Priority.
Proof. solve_decision. Defined.

Definition priority_name (p : Priority) : jsstring :=
  match p with
  | low => str "low"
  | medium => str "medium"
  | high => str "high"
  end.

Definition parse_priority (s : jsstring) : option Priority :=
  List.find (fun p => bool_decide (priority_name p = s)) [low; medium; high].

(** A stored document.  [timestamps: true] adds [createdAt] and [updatedAt]
    (milliseconds since the epoch). *)
Record Task := mkTask {
  _id : ObjectId;
  title : jsstring;
  description : jsstring;
  completed : bool;
  priority : Priority;
  createdAt : Z;
  updatedAt : Z
}.

#[global] Instance Task_eq_dec : EqDecision Task.
Proof. solve_decision. Defined.

(** The options of a String path of the schema. *)
Record StringPath := mkStringPath {
  path_required : bool;
  path_trim : bool;
  path_default : option jsstring;
  path_enum : option (list jsstring)
}.

Definition title_path : StringPath :=
  {| path_required := true; path_trim := true;
     path_default := None; path_enum := None |}.

Definition description_path : StringPath :=
  {| path_required := false; path_trim := true;
     path_default := Some (str "default value"); path_enum := None |}.

Definition priority_path : StringPath :=
  {| path_required := false; path_trim := false;
     path_default := Some (str "medium");
     path_enum := Some [str "low"; str "medium"; str "high"] |}.

(** [completed: { type: Boolean, default: false }] *)
Definition completed_default : option bool := Some false.

(** The fields of a request body that the schema knows, each one present
    with a value of its type or absent ([undefined]). *)
Record Body := mkBody {
  body_title : option jsstring;
  body_description : option jsstring;
  body_completed : option bool;
  body_priority : option jsstring
}.

(** The setter of a path: [trim: true] trims the value it is given. *)
Definition setter (p : StringPath) (v : jsstring) : jsstring :=
  if path_trim p then trim v else v.

(** A default fills a path that is [undefined]. *)
Definition or_default {A} (d : option A) (v : option A) : option A :=
  match v with
  | Some x => Some x
  | None => d
  end.

(** The validators of a path on a value: [required] fails on [undefined]
    and on the empty string, [enum] is skipped on [undefined] and fails on a
    string outside the list. *)
Definition validators (name : string) (p : StringPath) (v : option jsstring)
  : list (string * validator) :=
  (if path_required p
   then match v with
        | Some (_ :: _) => []
        | _ => [(name, Required)]
        end
   else [])
  ++
  match path_enum p, v with
  | Some allowed, Some s => if bool_decide (s ∈ allowed) then [] else [(name, Enum)]
  | _, _ => []
  end.

(** [new Task(body)]: setters on the values given, then defaults. *)
Definition construct (b : Body) : Body :=
  {| body_title := or_default (path_default title_path)
                     (setter title_path <$> body_title b);
     body_description := or_default (path_default description_path)
                           (setter description_path <$> body_description b);
     body_completed := or_default completed_default (body_completed b);
     body_priority := or_default (path_default priority_path)
                        (setter priority_path <$> body_priority b) |}.

(** Document validation: every path of the schema. *)
Definition validate (d : Body) : list (string * validator) :=
  validators "title" title_path (body_title d)
  ++ validators "description" description_path (body_description d)
  ++ validators "priority" priority_path (body_priority d).

(** The cast of an update: setters on the values given, no defaults. *)
Definition castUpdate (b : Body) : Body :=
  {| body_title := setter title_path <$> body_title b;
     body_description := setter description_path <$> body_description b;
     body_completed := body_completed b;
     body_priority := setter priority_path <$> body_priority b |}.

(** Update validators ([runValidators: true]): only the paths the update
    sets, each with all its validators. *)
Definition validators_if_set (name : string) (p : StringPath) (v : option jsstring)
  : list (string * validator) :=
  match v with
  | Some _ => validators name p v
  | None => []
  end.

Definition validateUpdate (u : Body) : list (string * validator) :=
  validators_if_set "title" title_path (body_title u)
  ++ validators_if_set "description" description_path (body_description u)
  ++ validators_if_set "priority" priority_path (body_priority u).

End Schema.

(* ===================================================================== *)
(** ** The model: operations on the collection *)
(* ===================================================================== *)

Module Model.
Import Js Schema.

(** The collection, in the order of insertion.  The store is always
    reachable: an operation fails only by a cast, a validator or the unique
    index. *)
Definition collection := list Task.

Definition has_id (id : ObjectId) (t : Task) : bool := (_id t =? id)%N.

Definition lookup_id (id : ObjectId) (c : collection) : option Task :=
  List.find (has_id id) c.

Fixpoint replace_id (id : ObjectId) (t' : Task) (c : collection) : collection :=
  match c with
  | [] => []
  | t :: c' => if has_id id t then t' :: c' else t :: replace_id id t' c'
  end.

Fixpoint remove_id (id : ObjectId) (c : collection) : collection :=
  match c with
  | [] => []
  | t :: c' => if has_id id t then c' else t :: remove_id id c'
  end.

(** [{ createdAt: -1 }]: [a] may stand before [b]. *)
Definition newer_first (a b : Task) : Prop := createdAt b <= createdAt a.

#[global] Instance newer_first_dec : RelDecision newer_first.
Proof. intros a b. unfold newer_first. apply _. Defined.

(** The document a validated draft becomes. *)
Definition document (id : ObjectId) (now : Z) (d : Body) : option Task :=
  t ← body_title d;
  ds ← body_description d;
  c ← body_completed d;
  p ← body_priority d ≫= parse_priority;
  Some {| _id := id; title := t; description := ds; completed := c;
          priority := p; createdAt := now; updatedAt := now |}.

(** [$set] of the paths an update gives; [updatedAt] follows the clock. *)
Definition set_fields (now : Z) (u : Body) (t : Task) : option Task :=
  p ← match body_priority u with
      | Some s => parse_priority s
      | None => Some (priority t)
      end;
  Some {| _id := _id t;
          title := default (title t) (body_title u);
          description := default (description t) (body_description u);
          completed := default (completed t) (body_completed u);
          priority := p;
          createdAt := createdAt t;
          updatedAt := now |}.

Section WithKeys.

(** The cast of a route parameter to a key: [None] when the text is not a
    well-formed key.  Which texts are well formed is the ORM's matter. *)
Variable castObjectId : jsstring -> option ObjectId.

Definition castId (raw : jsstring) : completion ObjectId :=
  match castObjectId raw with
  | Some id => Return id
  | None => Throw (CastError "_id" raw)
  end.

(** [Task.find({}).sort({ createdAt: -1 })] *)
Definition find_sort_createdAt_desc (c : collection) : completion (list Task) :=
  Return (merge_sort newer_first c).

(** [Task.findById(id)] *)
Definition findById (raw : jsstring) (c : collection) : completion (option Task) :=
  let* id := castId raw in
  Return (lookup_id id c).

(** [Task.create(body)]; the clock and the generated key are given. *)
Definition create (now : Z) (oid : ObjectId) (b : Body) (c : collection)
  : completion (Task * collection) :=
  let d := construct b in
  match validate d with
  | [] =>
      match document oid now d with
      | Some t =>
          match lookup_id oid c with
          | None => Return (t, c ++ [t])
          | Some _ => Throw (DuplicateKey oid)
          end
      | None => Throw (ValidationError [])
      end
  | failed => Throw (ValidationError failed)
  end.

(** [Task.findByIdAndUpdate(id, body, { new: true, runValidators: true })]:
    the filter and the update are cast and the update validators run before
    the collection is consulted; without a match nothing is written and the
    result is [null]. *)
Definition findByIdAndUpdate (now : Z) (raw : jsstring) (b : Body) (c : collection)
  : completion (option Task * collection) :=
  let* id := castId raw in
  let u := castUpdate b in
  match validateUpdate u with
  | [] =>
      match lookup_id id c with
      | None => Return (None, c)
      | Some t =>
          match set_fields now u t with
          | Some t' => Return (Some t', replace_id id t' c)
          | None => Throw (ValidationError [])
          end
      end
  | failed => Throw (ValidationError failed)
  end.

(** [Task.findByIdAndDelete(id)] *)
Definition findByIdAndDelete (raw : jsstring) (c : collection)
  : completion (option Task * collection) :=
  let* id := castId raw in
  match lookup_id id c with
  | None => Return (None, c)
  | Some t => Return (Some t, remove_id id c)
  end.

End WithKeys.

(** The textual form of a key that every version of the ORM accepts:
    24 hexadecimal digits. *)
Definition hex_digit (c : N) : option N :=
  if ((48 <=? c) && (c <=? 57))%N then Some (c - 48)%N
  else if ((97 <=? c) && (c <=? 102))%N then Some (c - 87)%N
  else if ((65 <=? c) && (c <=? 70))%N then Some (c - 55)%N
  else None.

Fixpoint hex_value (acc : N) (s : jsstring) : option N :=
  match s with
  | [] => Some acc
  | c :: s' =>
      match hex_digit c with
      | Some d => hex_value (16 * acc + d)%N s'
      | None => None
      end
  end.

Definition castObjectId_hex24 (s : jsstring) : option ObjectId :=
  if (length s =? 24)%nat then hex_value 0%N s else None.

End Model.

(* ===================================================================== *)
(** ** The route handlers (routes/tasks) *)
(* ===================================================================== *)

Module Routes.
Import Js Schema Model.

(** The [data] of an envelope: one task or the list of tasks. *)
Inductive payload :=
  | OneTask (t : Task)
  | Tasks (l : list Task).

(** [res.status(code).json({ success, count, message, data, error })];
    [error] carries the error whose message the handler reports. *)
Record Response := mkResponse {
  status : Z;
  success : bool;
  count : option nat;
  message : option string;
  data : option payload;
  error : option exn
}.

Section Handlers.
Variable castObjectId : jsstring -> option ObjectId.

(** GET /api/tasks *)
Definition get_tasks (c : collection) : Response * collection :=
  match find_sort_createdAt_desc c with
  | Return tasks =>
      ({| status := 200; success := true; count := Some (length tasks);
          message := None; data := Some (Tasks tasks); error := None |}, c)
  | Throw e =>
      ({| status := 500; success := false; count := None;
          message := Some "Server Error"; data := None; error := Some e |}, c)
  end.

(** GET /api/tasks/:id *)
Definition get_task (id : jsstring) (c : collection) : Response * collection :=
  match findById castObjectId id c with
  | Return None =>
      ({| status := 404; success := false; count := None;
          message := Some "Task not found"; data := None; error := None |}, c)
  | Return (Some task) =>
      ({| status := 200; success := true; count := None;
          message := None; data := Some (OneTask task); error := None |}, c)
  | Throw e =>
      ({| status := 400; success := false; count := None;
          message := Some "Invalid task ID"; data := None; error := Some e |}, c)
  end.

(** POST /api/tasks *)
Definition post_task (now : Z) (oid : ObjectId) (body : Body) (c : collection)
  : Response * collection :=
  match create now oid body c with
  | Return (task, c') =>
      ({| status := 201; success := true; count := None;
          message := Some "Task created successfully";
          data := Some (OneTask task); error := None |}, c')
  | Throw e =>
      ({| status := 400; success := false; count := None;
          message := Some "Error creating task"; data := None;
          error := Some e |}, c)
  end.

(** PUT /api/tasks/:id *)
Definition put_task (now : Z) (id : jsstring) (body : Body) (c : collection)
  : Response * collection :=
  match findByIdAndUpdate castObjectId now id body c with
  | Return (None, c') =>
      ({| status := 404; success := false; count := None;
          message := Some "Task not found"; data := None; error := None |}, c')
  | Return (Some task, c') =>
      ({| status := 200; success := true; count := None;
          message := Some "Task updated successfully";
          data := Some (OneTask task); error := None |}, c')
  | Throw e =>
      ({| status := 400; success := false; count := None;
          message := Some "Error updating task"; data := None;
          error := Some e |}, c)
  end.

(** DELETE /api/tasks/:id *)
Definition delete_task (id : jsstring) (c : collection) : Response * collection :=
  match findByIdAndDelete castObjectId id c with
  | Return (None, c') =>
      ({| status := 404; success := false; count := None;
          message := Some "Task not found"; data := None; error := None |}, c')
  | Return (Some task, c') =>
      ({| status := 200; success := true; count := None;
          message := Some "Task deleted successfully";
          data := Some (OneTask task); error := None |}, c')
  | Throw e =>
      ({| status := 400; success := false; count := None;
          message := Some "Error deleting task"; data := None;
          error := Some e |}, c)
  end.

End Handlers.
End Routes.

(* ===================================================================== *)
(** ** The API client (services/taskService) *)
(* ===================================================================== *)

Module TaskService.
Import Js Schema.

(** What axios hands to the interceptor for a response with a 2xx status:
    the status and the parsed body. *)
Record AxiosResponse := mkAxiosResponse {
  response_status : Z;
  response_data : value
}.

(** The fulfilment half of [api.interceptors.response.use]:
    [return response.data.data || response.data].  The log line of the
    development mode has no part in the result. *)
Definition onFulfilled (response : AxiosResponse) : completion value :=
  let* inner := getProp (response_data response) "data" in
  Return (or_else inner (response_data response)).

(** The requests the client sends. *)
Inductive Request :=
  | POST_tasks (taskData : Body)
  | PUT_tasks (taskId : ObjectId) (taskData : Body).

(** The far side of the wire: what a request resolves to once the
    interceptors have run, the task of the envelope or a thrown [Error]. *)
Definition Transport := Request -> completion Task.

(** [createTask(taskData)]; [sent] is the list of requests issued so far. *)
Definition createTask (api : Transport) (taskData : Body) (sent : list Request)
  : completion Task * list Request :=
  match body_title taskData with
  | Some t =>
      if bool_decide (t = []) || bool_decide (trim t = [])
      then (Throw (Error "Task title is required"), sent)
      else (api (POST_tasks taskData), sent ++ [POST_tasks taskData])
  | None => (Throw (Error "Task title is required"), sent)
  end.

(** [updateTask(taskId, taskData)].  [taskId] is the key of a task received
    from the server, never an empty text, so the guard [!taskId] stays
    silent. *)
Definition updateTask (api : Transport) (taskId : ObjectId) (taskData : Body)
  (sent : list Request) : completion Task * list Request :=
  (api (PUT_tasks taskId taskData), sent ++ [PUT_tasks taskId taskData]).

(** [deleteTask(taskId)]: the DELETE resolves to the removed task of the
    envelope or throws; the guard [!taskId] stays silent as in
    [updateTask]. *)
Definition deleteTask (api_delete : ObjectId -> completion Task) (taskId : ObjectId)
  : completion Task :=
  api_delete taskId.

(** [getAllTasks()]: the GET resolves to the list of the envelope or
    throws. *)
Definition getAllTasks (api_get : completion (list Task)) : completion (list Task) :=
  api_get.

End TaskService.

(* ===================================================================== *)
(** ** The state container (App) *)
(* ===================================================================== *)

Module App.
Import Js Schema TaskService.

(** The four [useState] cells of [App], and the requests sent so far. *)
Record State := mkState {
  tasks : list Task;
  loading : bool;
  error : string;
  editingTask : option Task;
  sent : list Request
}.

Definition setError (msg : string) (s : State) : State :=
  {| tasks := tasks s; loading := loading s; error := msg;
     editingTask := editingTask s; sent := sent s |}.

Definition setTasks (l : list Task) (s : State) : State :=
  {| tasks := l; loading := loading s; error := error s;
     editingTask := editingTask s; sent := sent s |}.

Definition setEditingTask (e : option Task) (s : State) : State :=
  {| tasks := tasks s; loading := loading s; error := error s;
     editingTask := e; sent := sent s |}.

Definition setSent (l : list Request) (s : State) : State :=
  {| tasks := tasks s; loading := loading s; error := error s;
     editingTask := editingTask s; sent := l |}.

(** [handleCreateTask]: the [catch] keeps every failure inside. *)
Definition handleCreateTask (api : Transport) (taskData : Body) (s : State)
  : completion unit * State :=
  let s1 := setError "" s in
  match createTask api taskData (sent s1) with
  | (Return newTask, sent') =>
      (Return tt, setTasks (newTask :: tasks s1) (setSent sent' s1))
  | (Throw err, sent') =>
      (Return tt, setError "Failed to create task. Please try again." (setSent sent' s1))
  end.

(** [handleUpdateTask] *)
Definition handleUpdateTask (api : Transport) (taskId : ObjectId) (taskData : Body)
  (s : State) : completion unit * State :=
  let s1 := setError "" s in
  match updateTask api taskId taskData (sent s1) with
  | (Return updatedTask, sent') =>
      let s2 := setSent sent' s1 in
      let s3 :=
        setTasks (map (fun task => if (_id task =? taskId)%N then updatedTask else task)
                      (tasks s2)) s2 in
      (Return tt, setEditingTask None s3)
  | (Throw err, sent') =>
      (Return tt, setError "Failed to update task. Please try again." (setSent sent' s1))
  end.

(** The props [App] passes to the form: [initialData={editingTask}],
    [isEditing={!!editingTask}] and the [onSubmit] chosen by [editingTask]. *)
Definition initialData (s : State) : option Task := editingTask s.

Definition isEditing (s : State) : bool :=
  match editingTask s with
  | Some _ => true
  | None => false
  end.

Definition onSubmit (api : Transport) (s : State) : Body -> State -> completion unit * State :=
  match editingTask s with
  | Some t => fun data => handleUpdateTask api (_id t) data
  | None => handleCreateTask api
  end.

Definition setLoading (b : bool) (s : State) : State :=
  {| tasks := tasks s; loading := b; error := error s;
     editingTask := editingTask s; sent := sent s |}.

(** [fetchTasks]; [sent] keeps to the requests that carry task data. *)
Definition fetchTasks (api_get : completion (list Task)) (s : State) : State :=
  let s1 := setError "" (setLoading true s) in
  let s2 :=
    match getAllTasks api_get with
    | Return fetchedTasks => setTasks fetchedTasks s1
    | Throw err => setError "Failed to load tasks. Please try again." s1
    end in
  setLoading false s2.

(** [handleDeleteTask] *)
Definition handleDeleteTask (api_delete : ObjectId -> completion Task)
  (taskId : ObjectId) (s : State) : completion unit * State :=
  let s1 := setError "" s in
  match deleteTask api_delete taskId with
  | Return _ =>
      (Return tt,
       setTasks (List.filter (fun task => negb (_id task =? taskId)%N) (tasks s1)) s1)
  | Throw err =>
      (Return tt, setError "Failed to delete task. Please try again." s1)
  end.

(** [handleToggleComplete]: an update that carries [completed] alone. *)
Definition handleToggleComplete (api : Transport) (taskId : ObjectId)
  (completed : bool) (s : State) : completion unit * State :=
  match handleUpdateTask api taskId
          {| body_title := None; body_description := None;
             body_completed := Some completed; body_priority := None |} s with
  | (Return _, s') => (Return tt, s')
  | (Throw err, s') => (Return tt, s')
  end.

Definition handleEditTask (task : Task) (s : State) : State :=
  setEditingTask (Some task) s.

Definition handleCancelEdit (s : State) : State := setEditingTask None s.

End App.

(* ===================================================================== *)
(** ** The form (components/TaskForm) *)
(* ===================================================================== *)

Module TaskForm.
Import Js Schema.

Record FormData := mkFormData {
  title : jsstring;
  description : jsstring;
  priority : jsstring
}.

(** The keys an [errors] object may hold. *)
Record Errors := mkErrors {
  errors_title : option string;
  errors_description : option string;
  errors_submit : option string
}.

Record FormState := mkFormState {
  formData : FormData;
  isSubmitting : bool;
  errors : Errors
}.

Definition emptyForm : FormData :=
  {| title := []; description := []; priority := str "medium" |}.

Definition noErrors : Errors :=
  {| errors_title := None; errors_description := None; errors_submit := None |}.

Definition initialState : FormState :=
  {| formData := emptyForm; isSubmitting := false; errors := noErrors |}.

(** The [newErrors] object [validateForm] builds. *)
Definition newErrors (f : FormData) : Errors :=
  {| errors_title :=
       if bool_decide (trim (title f) = []) then Some "Task title is required"
       else if (length (trim (title f)) <? 3)%nat
            then Some "Title must be at least 3 characters long"
       else if (100 <? length (trim (title f)))%nat
            then Some "Title must be less than 100 characters"
       else None;
     errors_description :=
       if (250 <? length (description f))%nat
       then Some "Description must be less than 250 characters"
       else None;
     errors_submit := None |}.

(** [Object.keys(newErrors).length === 0] *)
Definition validateForm (f : FormData) : bool :=
  match errors_title (newErrors f), errors_description (newErrors f) with
  | None, None => true
  | _, _ => false
  end.

(** [dataToSubmit] *)
Definition dataToSubmit (f : FormData) : Body :=
  {| body_title := Some (trim (title f));
     body_description := Some (trim (description f));
     body_completed := None;
     body_priority := Some (priority f) |}.

(** [error.message || 'Failed to save task. Please try again.'] *)
Definition submitMessage (e : exn) : string :=
  match message_of e with
  | Some msg => if bool_decide (msg = ""%string)
                then "Failed to save task. Please try again."%string else msg
  | None => "Failed to save task. Please try again."%string
  end.

(** [handleSubmit], over the state [W] of the parent that [onSubmit] acts
    on.  [isEditing] is the prop of the render the handler was created in. *)
Definition handleSubmit {W : Type} (isEditing : bool)
  (onSubmit : Body -> W -> completion unit * W) (f : FormState) (w : W)
  : FormState * W :=
  if negb (validateForm (formData f))
  then ({| formData := formData f; isSubmitting := isSubmitting f;
           errors := newErrors (formData f) |}, w)
  else
    match onSubmit (dataToSubmit (formData f)) w with
    | (Return _, w') =>
        ({| formData := if negb isEditing then emptyForm else formData f;
            isSubmitting := false;
            errors := noErrors |}, w')
    | (Throw e, w') =>
        ({| formData := formData f;
            isSubmitting := false;
            errors := {| errors_title := None; errors_description := None;
                         errors_submit := Some (submitMessage e) |} |}, w')
    end.

(** The body of the effect with dependencies [[initialData, isEditing]]. *)
Definition populate (initialData : option Task) (isEditing : bool) (f : FormState)
  : FormState :=
  match initialData, isEditing with
  | Some t, true =>
      {| formData := {| title := Schema.title t;
                        description := Schema.description t;
                        priority := priority_name (Schema.priority t) |};
         isSubmitting := isSubmitting f;
         errors := noErrors |}
  | _, _ =>
      {| formData := emptyForm; isSubmitting := isSubmitting f; errors := noErrors |}
  end.

(** A render with new props: the effect runs when a dependency changed.
    React compares dependencies by identity; the handlers of [App] either
    leave [editingTask] alone or set it to [null], so that identity and
    equality of the props agree along a submission. *)
Definition rerender (before after : option Task * bool) (f : FormState) : FormState :=
  if decide (before = after) then f else populate after.1 after.2 f.

(** One submission of the form mounted in [App]: the handler of the current
    render runs to its end, then the form is rendered with the props of the
    new state. *)
Definition submit (api : TaskService.Transport) (f : FormState) (s : App.State)
  : FormState * App.State :=
  let '(f', s') := handleSubmit (App.isEditing s) (App.onSubmit api s) f s in
  (rerender (App.initialData s, App.isEditing s)
            (App.initialData s', App.isEditing s') f', s').


(** [handleCancel]; [onCancel] may be missing. *)
Definition handleCancel {W : Type} (onCancel : option (W -> W)) (f : FormState) (w : W)
  : FormState * W :=
  ({| formData := emptyForm; isSubmitting := isSubmitting f; errors := noErrors |},
   match onCancel with
   | Some cancel => cancel w
   | None => w
   end).

(** [disabled={isSubmitting || !formData.title.trim()}] of the submit
    button. *)
Definition submitDisabled (f : FormState) : bool :=
  isSubmitting f || bool_decide (trim (title (formData f)) = []).

End TaskForm.

(* ===================================================================== *)
(** ** The list view (components/TaskList) *)
(* ===================================================================== *)

Module TaskList.
Import Js Schema.

(** The values of the [filter] and [sortBy] cells. *)
Inductive filter_option := show_all | show_active | show_completed.
Inductive sort_option := newest | oldest | by_priority | alphabetical.

(** [const priorityOrder = { high: 3, medium: 2, low: 1 }] *)
Definition priorityOrder (p : Priority) : Z :=
  match p with
  | high => 3
  | medium => 2
  | low => 1
  end.

(** The callback of [tasks.filter]. *)
Definition keeps (filter : filter_option) (task : Task) : bool :=
  match filter with
  | show_active => negb (completed task)
  | show_completed => completed task
  | show_all => true
  end.

Definition filtered (filter : filter_option) (tasks : list Task) : list Task :=
  List.filter (keeps filter) tasks.

Section Collation.

(** [String.prototype.toLowerCase] and [localeCompare] follow the locale of
    the host. *)
Variable toLowerCase : jsstring -> jsstring.
Variable localeCompare : jsstring -> jsstring -> Z.

(** The comparator handed to [sort]. *)
Definition comparator (sortBy : sort_option) (a b : Task) : Z :=
  match sortBy with
  | oldest => createdAt a - createdAt b
  | by_priority => priorityOrder (priority b) - priorityOrder (priority a)
  | alphabetical => localeCompare (toLowerCase (title a)) (toLowerCase (title b))
  | newest => createdAt b - createdAt a
  end.

Definition filteredAndSortedTasks (filter : filter_option) (sortBy : sort_option)
  (tasks : list Task) : list Task :=
  Array_sort (comparator sortBy) (filtered filter tasks).

End Collation.

(** [handleDelete] of the list: nothing happens unless the user confirms;
    the task is marked as loading while [onDelete] runs, and the mark is
    removed in the [finally] block.  [W] is the state [onDelete] acts on. *)
Definition handleDelete {W : Type} (confirmed : bool)
  (onDelete : ObjectId -> W -> completion unit * W) (taskId : ObjectId)
  (loadingTasks : gset ObjectId) (w : W) : gset ObjectId * W :=
  if negb confirmed then (loadingTasks, w)
  else
    let marked := loadingTasks ∪ {[ taskId ]} in
    let '(_, w') := onDelete taskId w in
    (marked ∖ {[ taskId ]}, w').

(** [handleToggleComplete] of the list. *)
Definition handleToggleComplete {W : Type}
  (onToggleComplete : ObjectId -> bool -> W -> completion unit * W)
  (taskId : ObjectId) (completed : bool) (loadingTasks : gset ObjectId) (w : W)
  : gset ObjectId * W :=
  let marked := loadingTasks ∪ {[ taskId ]} in
  let '(_, w') := onToggleComplete taskId completed w in
  (marked ∖ {[ taskId ]}, w').

End TaskList.

(* ===================================================================== *)
(** ** The statistics (components/TaskStats) *)
(* ===================================================================== *)

Module TaskStats.
Import Js Schema.

Definition totalTasks (tasks : list Task) : nat := length tasks.

Definition completedTasks (tasks : list Task) : nat :=
  length (List.filter completed tasks).

Definition activeTasks (tasks : list Task) : nat :=
  (totalTasks tasks - completedTasks tasks)%nat.

(** [totalTasks === 0 ? 0 : Math.round((completedTasks / totalTasks) * 100)] *)
Definition completionPercentage (tasks : list Task) : number :=
  if (totalTasks tasks =? 0)%nat then num_of_Z 0
  else Math_round
         (num_mul (num_div (num_of_nat (completedTasks tasks))
                           (num_of_nat (totalTasks tasks)))
                  (num_of_Z 100)).


(** The accumulator [{ high: 0, medium: 0, low: 0 }] of the two [reduce]
    calls. *)
Record Counts := mkCounts {
  count_high : nat;
  count_medium : nat;
  count_low : nat
}.

(** [acc[task.priority] = (acc[task.priority] || 0) + 1] *)
Definition increment (acc : Counts) (p : Priority) : Counts :=
  match p with
  | high => {| count_high := count_high acc + 1; count_medium := count_medium acc;
               count_low := count_low acc |}
  | medium => {| count_high := count_high acc; count_medium := count_medium acc + 1;
                 count_low := count_low acc |}
  | low => {| count_high := count_high acc; count_medium := count_medium acc;
              count_low := count_low acc + 1 |}
  end.

Definition countByPriority (tasks : list Task) : Counts :=
  fold_left (fun acc task => increment acc (priority task)) tasks
    {| count_high := 0; count_medium := 0; count_low := 0 |}.

Definition tasksByPriority (tasks : list Task) : Counts := countByPriority tasks.

Definition completedByPriority (tasks : list Task) : Counts :=
  countByPriority (List.filter completed tasks).

Definition count_of (acc : Counts) (p : Priority) : nat :=
  match p with
  | high => count_high acc
  | medium => count_medium acc
  | low => count_low acc
  end.

End TaskStats.

(* ===================================================================== *)
(** ** Vocabulary of the properties *)
(* ===================================================================== *)

(** [Interleaved l1 l2 l]: [l] is made of the elements of [l1] and of [l2],
    each list in its own order. *)
Inductive Interleaved {A : Type} : list A -> list A -> list A -> Prop :=
  | Interleaved_nil : Interleaved [] [] []
  | Interleaved_left x l1 l2 l :
      Interleaved l1 l2 l -> Interleaved (x :: l1) l2 (x :: l)
  | Interleaved_right x l1 l2 l :
      Interleaved l1 l2 l -> Interleaved l1 (x :: l2) (x :: l).

(** [Before P Q l]: in [l] every element with [P] stands before every
    element with [Q]. *)
Definition Before {A : Type} (P Q : A -> Prop) (l : list A) : Prop :=
  forall i j a b, l !! i = Some a -> l !! j = Some b -> P a -> Q b -> (i < j)%nat.

(** The percentage as the specification words it, in exact arithmetic:
    0 for no task, otherwise completed over total, times 100, rounded to the
    nearest integer, a half rounded up:
    [floor (100 * completed / total + 1/2)]. *)
Definition percentage_spec (completed total : nat) : Z :=
  match total with
  | O => 0
  | S _ => (200 * Z.of_nat completed + Z.of_nat total) / (2 * Z.of_nat total)
  end.

(** [100 * completed / total] lies exactly halfway between two integers. *)
Definition halfway (completed total : nat) : Prop :=
  (200 * Z.of_nat completed) mod (2 * Z.of_nat total) = Z.of_nat total.

#[global] Instance halfway_dec completed total : Decision (halfway completed total).
Proof. unfold halfway. apply _. Defined.

#[global] Instance number_eq_dec : EqDecision Js.number.
Proof. solve_decision. Defined.

(** A list of [total] tasks of which the first [completed] are completed. *)
Definition sample_tasks (completed total : nat) : list Schema.Task :=
  replicate completed (Schema.mkTask 0%N [] [] true Schema.medium 0 0)
  ++ replicate (total - completed) (Schema.mkTask 0%N [] [] false Schema.medium 0 0).



(** Timestamps in descending order. *)
Definition descending : relation Z := fun x y => y <= x.

(** The tasks of a list that have priority [p], in the order of the list. *)
Definition with_priority (p : Schema.Priority) (l : list Schema.Task) : list Schema.Task :=
  List.filter (fun t => bool_decide (Schema.priority t = p)) l.

(** [a] is at least as urgent as [b]. *)
Definition by_rank : relation Schema.Task := fun a b =>
  TaskList.priorityOrder (Schema.priority b) <= TaskList.priorityOrder (Schema.priority a).

Definition rank_descending : relation Schema.Priority := fun p q =>
  TaskList.priorityOrder q <= TaskList.priorityOrder p.

(** No task of the collection has the key [id]. *)
Definition no_match (id : Schema.ObjectId) (c : Model.collection) : Prop :=
  forall t, t ∈ c -> Schema._id t <> id.

(** The body of an update passes the update validators. *)
Definition update_valid (b : Schema.Body) : Prop :=
  Schema.validateUpdate (Schema.castUpdate b) = [].

(** A title that is absent, empty, or made of white space only. *)
Definition title_missing (t : option Js.jsstring) : Prop :=
  match t with
  | None => True
  | Some s => Js.blank s
  end.

(** What the schema makes of every stored task: a title that is not empty
    and has no white space at either end, and a description without white
    space at either end. *)
Definition stored_ok (t : Schema.Task) : Prop :=
  Schema.title t <> []
  /\ Js.trim (Schema.title t) = Schema.title t
  /\ Js.trim (Schema.description t) = Schema.description t.

(** Keys identify tasks. *)
Definition unique_ids (c : list Schema.Task) : Prop := NoDup (Schema._id <$> c).

(** No two tasks were created in the same millisecond. *)
Definition distinct_times (c : list Schema.Task) : Prop :=
  forall a b, a ∈ c -> b ∈ c -> Schema.createdAt a = Schema.createdAt b -> a = b.

(** The list GET /api/tasks answers with. *)
Definition listing (c : Model.collection) : list Schema.Task :=
  merge_sort Model.newer_first c.

(** A list in ascending order of a key. *)
Definition ascending {A : Type} (key : A -> Z) : relation A :=
  fun a b => key a <= key b.

(** The elements of a list with a given key, in the order of the list. *)
Definition with_key {A : Type} (key : A -> Z) (k : Z) (l : list A) : list A :=
  List.filter (fun a => bool_decide (key a = k)) l.

(** The sort key behind each sort option that compares numbers. *)
Definition sort_key (sortBy : TaskList.sort_option) (t : Schema.Task) : Z :=
  match sortBy with
  | TaskList.oldest => Schema.createdAt t
  | TaskList.by_priority => - TaskList.priorityOrder (Schema.priority t)
  | _ => - Schema.createdAt t
  end.

(** The map of [handleUpdateTask]. *)
Definition patch (taskId : Schema.ObjectId) (updatedTask : Schema.Task)
  (task : Schema.Task) : Schema.Task :=
  if (Schema._id task =? taskId)%N then updatedTask else task.

(* ===================================================================== *)
(** * Properties *)
(* ===================================================================== *)

Import Js Schema Model Routes.

(** ** Trimming *)

Lemma trimStart_blank s : blank s -> trimStart s = [].
Proof.
  induction 1 as [|c s Hc _ IH]; simpl; [done|].
  by rewrite Hc.
Qed.

Lemma trim_blank s : blank s -> trim s = [].
Proof.
  intros H. unfold trim, trimEnd. by rewrite (trimStart_blank s H).
Qed.

Lemma trimStart_head s :
  trimStart s = [] \/ exists c s', trimStart s = c :: s' /\ isWhiteSpace c = false.
Proof.
  induction s as [|c s IH]; simpl; [by left|].
  destruct (isWhiteSpace c) eqn:Hc; [done|].
  right. by exists c, s.
Qed.

Lemma trimStart_nil_blank s : trimStart s = [] -> blank s.
Proof.
  induction s as [|c s IH]; simpl; [intros _; apply Forall_nil_2|].
  destruct (isWhiteSpace c) eqn:Hc; [|done].
  intros H. apply Forall_cons_2; [exact Hc | exact (IH H)].
Qed.

Lemma trim_nil_blank s : trim s = [] -> blank s.
Proof.
  unfold trim, trimEnd. intros H.
  assert (Hr : trimStart (rev (trimStart s)) = []).
  { apply (f_equal (@rev N)) in H. by rewrite rev_involutive in H. }
  apply trimStart_nil_blank in Hr.
  destruct (trimStart_head s) as [Hs|(c & s' & Hs & Hc)].
  - by apply trimStart_nil_blank.
  - rewrite Hs in Hr. unfold blank in Hr.
    rewrite Forall_forall in Hr.
    specialize (Hr c). rewrite Hc in Hr.
    discriminate Hr. apply list_elem_of_In, in_rev. rewrite rev_involutive. by left.
Qed.

Lemma blank_iff_trim s : blank s <-> trim s = [].
Proof. split; [apply trim_blank | apply trim_nil_blank]. Qed.

(** ** Validated drafts become documents *)

Lemma parse_priority_enum s :
  s ∈ [str "low"; str "medium"; str "high"] -> exists p, parse_priority s = Some p.
Proof.
  rewrite !elem_of_cons, elem_of_nil.
  intros [->|[->|[->|[]]]]; eexists; reflexivity.
Qed.

Lemma validators_priority_nil s :
  validators "priority" priority_path (Some s) = [] ->
  exists p, parse_priority s = Some p.
Proof.
  unfold validators, priority_path. simpl.
  destruct (bool_decide _) eqn:Hin; [|done].
  intros _. apply parse_priority_enum. by apply bool_decide_eq_true in Hin.
Qed.

(** A draft that passes validation has every field of a document: the
    last branch of [create] is never taken. *)
Lemma document_of_valid oid now b :
  validate (construct b) = [] -> exists t, document oid now (construct b) = Some t.
Proof.
  unfold validate. intros H.
  apply app_eq_nil in H as [Ht H]. apply app_eq_nil in H as [_ Hp].
  unfold document. revert Ht Hp. unfold construct.
  cbn [body_title body_description body_completed body_priority].
  destruct (body_title b) as [t|]; [|done].
  destruct (body_description b), (body_completed b), (body_priority b) as [p|];
    cbn [fmap option_fmap option_map or_default path_default title_path
         description_path priority_path completed_default mbind option_bind];
    intros _ Hp; apply validators_priority_nil in Hp as [q Hq];
    rewrite ?Hq; cbn; rewrite ?Hq; eauto.
Qed.

(** An update that passes the update validators can be applied: the last
    branch of [findByIdAndUpdate] is never taken. *)
Lemma set_fields_of_valid now b t :
  update_valid b -> exists t', set_fields now (castUpdate b) t = Some t'.
Proof.
  unfold update_valid, validateUpdate. intros H.
  apply app_eq_nil in H as [_ H]. apply app_eq_nil in H as [_ Hp].
  unfold set_fields. revert Hp. unfold castUpdate. cbn [body_priority].
  destruct (body_priority b) as [p|]; cbn [fmap option_fmap option_map validators_if_set].
  - intros Hp. apply validators_priority_nil in Hp as [q Hq].
    rewrite Hq. simpl. eauto.
  - intros _. simpl. eauto.
Qed.

(** ** Creation with a missing title (C1) *)

Lemma validate_title_missing b :
  title_missing (body_title b) ->
  exists rest, validate (construct b) = ("title"%string, Required) :: rest.
Proof.
  unfold validate, construct, title_missing. cbn [body_title].
  destruct (body_title b) as [s|]; intros H.
  - cbn [fmap option_fmap option_map setter title_path path_trim].
    rewrite (trim_blank s H). simpl. eauto.
  - simpl. eauto.
Qed.

Lemma create_title_missing now oid b c :
  title_missing (body_title b) ->
  exists rest, create now oid b c = Throw (ValidationError (("title"%string, Required) :: rest)).
Proof.
  intros H. destruct (validate_title_missing b H) as [rest Hv].
  exists rest. unfold create. by rewrite Hv.
Qed.

Lemma newErrors_blank_title f :
  blank (TaskForm.title f) ->
  TaskForm.errors_title (TaskForm.newErrors f) = Some "Task title is required"%string.
Proof.
  intros H. unfold TaskForm.newErrors. simpl.
  by rewrite (trim_blank _ H).
Qed.

Lemma validateForm_blank_title f :
  blank (TaskForm.title f) -> TaskForm.validateForm f = false.
Proof.
  intros H. unfold TaskForm.validateForm. by rewrite (newErrors_blank_title f H).
Qed.

(** C1.  A create request whose title is absent, empty or white space is
    answered with 400 and [success: false], names the [required] validator
    of [title] as the failure, and leaves the collection as it was.  In the
    form such a title fails [validateForm]; [handleSubmit] then only records
    the errors and returns without calling [onSubmit], whatever [onSubmit]
    is, and the form mounted in [App] sends no request and adds no task. *)
Theorem C1_missing_title_rejected (t : option jsstring) :
  title_missing t ->
  (forall now oid body c, body_title body = t ->
     exists failed,
       post_task now oid body c =
         ({| status := 400; success := false; count := None;
             message := Some "Error creating task"%string; data := None;
             error := Some (ValidationError failed) |}, c)
       /\ ("title"%string, Required) ∈ failed)
  /\
  (forall s f, t = Some s -> TaskForm.title (TaskForm.formData f) = s ->
     TaskForm.validateForm (TaskForm.formData f) = false
     /\ (forall (W : Type) isEditing
                (onSubmit : Body -> W -> completion unit * W) (w : W),
           TaskForm.handleSubmit isEditing onSubmit f w =
             ({| TaskForm.formData := TaskForm.formData f;
                 TaskForm.isSubmitting := TaskForm.isSubmitting f;
                 TaskForm.errors := TaskForm.newErrors (TaskForm.formData f) |}, w))
     /\ TaskForm.errors_title (TaskForm.newErrors (TaskForm.formData f))
          = Some "Task title is required"%string
     /\ (forall api st,
           App.sent (TaskForm.submit api f st).2 = App.sent st
           /\ App.tasks (TaskForm.submit api f st).2 = App.tasks st)).
Proof.
  intros Ht. split.
  - intros now oid body c <-.
    destruct (create_title_missing now oid body c Ht) as [rest Hc].
    exists (("title"%string, Required) :: rest). split.
    + unfold post_task. by rewrite Hc.
    + by left.
  - intros s f -> Hs. simpl in Ht. rewrite <- Hs in Ht.
    pose proof (validateForm_blank_title _ Ht) as Hv.
    assert (Hh : forall (W : Type) isEditing
                (onSubmit : Body -> W -> completion unit * W) (w : W),
           TaskForm.handleSubmit isEditing onSubmit f w =
             ({| TaskForm.formData := TaskForm.formData f;
                 TaskForm.isSubmitting := TaskForm.isSubmitting f;
                 TaskForm.errors := TaskForm.newErrors (TaskForm.formData f) |}, w)).
    { intros. unfold TaskForm.handleSubmit. by rewrite Hv. }
    repeat split; auto using newErrors_blank_title.
    + unfold TaskForm.submit. by rewrite Hh.
    + unfold TaskForm.submit. by rewrite Hh.
Qed.

Lemma C1_missing_title_rejected_witness :
  let body := {| body_title := Some (str "  "); body_description := None;
                 body_completed := None; body_priority := None |} in
  let f := {| TaskForm.formData :=
                {| TaskForm.title := str "  "; TaskForm.description := [];
                   TaskForm.priority := str "medium" |};
              TaskForm.isSubmitting := false;
              TaskForm.errors := TaskForm.noErrors |} in
  (exists failed,
     post_task 1000 7%N body [] =
       ({| status := 400; success := false; count := None;
           message := Some "Error creating task"%string; data := None;
           error := Some (ValidationError failed) |}, [])
     /\ ("title"%string, Required) ∈ failed)
  /\ TaskForm.validateForm (TaskForm.formData f) = false.
Proof.
  intros body f.
  destruct (C1_missing_title_rejected (Some (str "  "))) as [Hserver Hclient].
  - simpl. repeat constructor.
  - split.
    + apply Hserver. reflexivity.
    + destruct (Hclient (str "  ") f eq_refl eq_refl) as [Hv _]. exact Hv.
Defined.

Example post_blank_title_example :
  post_task 1000 7%N
    {| body_title := Some (str "  "); body_description := None;
       body_completed := None; body_priority := None |} []
  = ({| status := 400; success := false; count := None;
        message := Some "Error creating task"%string; data := None;
        error := Some (ValidationError [("title"%string, Required)]) |}, []).
Proof. reflexivity. Qed.

(** ** The list of tasks (C2) *)

#[local] Instance newer_first_total : Total newer_first.
Proof. intros a b. unfold newer_first. lia. Qed.

#[local] Instance newer_first_trans : Transitive newer_first.
Proof. intros a b c. unfold newer_first. lia. Qed.

#[local] Instance descending_trans : Transitive descending.
Proof. intros a b c. unfold descending. lia. Qed.

#[local] Instance descending_antisymm : AntiSymm (=) descending.
Proof. intros a b. unfold descending. lia. Qed.

Lemma sorted_createdAt (l : list Task) :
  StronglySorted newer_first l -> StronglySorted descending (createdAt <$> l).
Proof. apply StronglySorted_fmap. auto. Qed.

Lemma find_sort_spec (c : collection) :
  merge_sort newer_first c ≡ₚ c /\ StronglySorted newer_first (merge_sort newer_first c).
Proof.
  split; [apply merge_sort_Permutation | apply StronglySorted_merge_sort; apply _].
Qed.

Lemma find_sort_order_independent (c c' : collection) :
  c' ≡ₚ c ->
  createdAt <$> merge_sort newer_first c' = createdAt <$> merge_sort newer_first c.
Proof.
  intros Hp.
  destruct (find_sort_spec c) as [Hc Hs], (find_sort_spec c') as [Hc' Hs'].
  apply (StronglySorted_unique descending); auto using sorted_createdAt.
  apply fmap_Permutation. by rewrite Hc', Hc.
Qed.

(** C2.  Whatever the collection holds, GET /api/tasks answers 200 with
    [success: true]; [data] is a rearrangement of the whole collection (no
    task is left out or added), [count] is its length, the tasks stand in
    descending order of [createdAt], and the sequence of [createdAt] values
    in the answer is the same for every order in which the same tasks were
    inserted.  The collection itself is left as it was. *)
Theorem C2_list_newest_first (c : collection) :
  exists tasks,
    get_tasks c =
      ({| status := 200; success := true; count := Some (length tasks);
          message := None; data := Some (Tasks tasks); error := None |}, c)
    /\ tasks ≡ₚ c
    /\ length tasks = length c
    /\ StronglySorted newer_first tasks
    /\ (forall c', c' ≡ₚ c ->
        exists tasks',
          data (get_tasks c').1 = Some (Tasks tasks')
          /\ createdAt <$> tasks' = createdAt <$> tasks).
Proof.
  exists (merge_sort newer_first c).
  destruct (find_sort_spec c) as [Hp Hs].
  repeat split; auto.
  - by rewrite Hp.
  - intros c' Hc'. exists (merge_sort newer_first c'). split; [done|].
    by apply find_sort_order_independent.
Qed.

Lemma C2_list_newest_first_witness :
  let t1 := mkTask 1%N (str "a") [] false low 10 10 in
  let t2 := mkTask 2%N (str "b") [] true high 30 30 in
  exists tasks,
    data (get_tasks [t1; t2]).1 = Some (Tasks tasks)
    /\ tasks ≡ₚ [t1; t2]
    /\ StronglySorted newer_first tasks.
Proof.
  intros t1 t2.
  destruct (C2_list_newest_first [t1; t2]) as (tasks & Hget & Hperm & _ & Hsorted & _).
  exists tasks. rewrite Hget. auto.
Defined.

Example get_tasks_example :
  let t1 := mkTask 1%N (str "a") [] false low 10 10 in
  let t2 := mkTask 2%N (str "b") [] true high 30 30 in
  let t3 := mkTask 3%N (str "c") [] false medium 20 25 in
  data (get_tasks [t1; t2; t3]).1 = Some (Tasks [t2; t3; t1])
  /\ data (get_tasks [t3; t1; t2]).1 = Some (Tasks [t2; t3; t1]).
Proof. split; vm_compute; reflexivity. Qed.

(** ** Looking a key up *)

Lemma lookup_id_Some id c t :
  lookup_id id c = Some t -> t ∈ c /\ _id t = id.
Proof.
  unfold lookup_id. intros H. apply find_some in H as [Hin Hid].
  split; [by apply list_elem_of_In|].
  unfold has_id in Hid. by apply N.eqb_eq.
Qed.

Lemma lookup_id_None id c : lookup_id id c = None <-> no_match id c.
Proof.
  unfold lookup_id, no_match. split.
  - intros H t Hin Heq.
    apply list_elem_of_In in Hin.
    apply (find_none _ _ H) in Hin.
    unfold has_id in Hin. apply N.eqb_neq in Hin. done.
  - intros H. destruct (List.find (has_id id) c) as [t|] eqn:Hf; [|done].
    apply find_some in Hf as [Hin Hid].
    apply list_elem_of_In in Hin. apply H in Hin.
    unfold has_id in Hid. apply N.eqb_eq in Hid. done.
Qed.

Lemma lookup_id_is_Some id c t :
  t ∈ c -> _id t = id -> exists t', lookup_id id c = Some t'.
Proof.
  intros Hin Hid. destruct (lookup_id id c) as [t'|] eqn:Hl; [eauto|].
  apply lookup_id_None in Hl. by destruct (Hl t Hin).
Qed.

(** ** Reading one task (C4) *)

(** C4.  GET /api/tasks/:id has three outcomes.  When the id is a
    well-formed key and some task has it, the answer is 200 with
    [success: true] and a task of the collection with that key as [data].
    When the id is well formed and no task has it, the answer is 404 with
    [success: false] and the message "Task not found".  When the id is not a
    well-formed key the answer is 400 with the cast error, which is neither
    of the other two.  The collection is never changed. *)
Theorem C4_get_by_id (castObjectId : jsstring -> option ObjectId)
  (id : jsstring) (c : collection) :
  (forall k, castObjectId id = Some k -> (exists t, t ∈ c /\ _id t = k) ->
     exists t, t ∈ c /\ _id t = k /\
       get_task castObjectId id c =
         ({| status := 200; success := true; count := None; message := None;
             data := Some (OneTask t); error := None |}, c))
  /\ (forall k, castObjectId id = Some k -> no_match k c ->
        get_task castObjectId id c =
          ({| status := 404; success := false; count := None;
              message := Some "Task not found"%string; data := None;
              error := None |}, c))
  /\ (castObjectId id = None ->
        get_task castObjectId id c =
          ({| status := 400; success := false; count := None;
              message := Some "Invalid task ID"%string; data := None;
              error := Some (CastError "_id" id) |}, c)).
Proof.
  unfold get_task, findById, castId. repeat split.
  - intros k -> (t & Hin & Hid).
    destruct (lookup_id_is_Some k c t Hin Hid) as [t' Hl].
    exists t'. destruct (lookup_id_Some _ _ _ Hl) as [Hin' Hid'].
    simpl. by rewrite Hl.
  - intros k -> Hno. apply lookup_id_None in Hno. simpl. by rewrite Hno.
  - intros ->. done.
Qed.

Lemma C4_get_by_id_witness :
  let t := mkTask 17%N (str "Buy milk") (str "default value") false medium 5 5 in
  get_task castObjectId_hex24 (str "000000000000000000000011") [t] =
    ({| status := 200; success := true; count := None; message := None;
        data := Some (OneTask t); error := None |}, [t])
  /\ status (get_task castObjectId_hex24 (str "000000000000000000000012") [t]).1 = 404
  /\ status (get_task castObjectId_hex24 (str "milk") [t]).1 = 400.
Proof.
  intros t.
  destruct (C4_get_by_id castObjectId_hex24 (str "000000000000000000000011") [t])
    as (Hfound & _ & _).
  destruct (C4_get_by_id castObjectId_hex24 (str "000000000000000000000012") [t])
    as (_ & Hmissing & _).
  destruct (C4_get_by_id castObjectId_hex24 (str "milk") [t]) as (_ & _ & Hbad).
  split; [|split].
  - destruct (Hfound 17%N eq_refl) as (t' & Hin & _ & Heq).
    + exists t. split; [by left | reflexivity].
    + apply list_elem_of_singleton in Hin. by subst t'.
  - rewrite (Hmissing 18%N eq_refl); [reflexivity|].
    intros t' Hin. apply list_elem_of_singleton in Hin. by subst t'.
  - by rewrite (Hbad eq_refl).
Defined.

(** ** Updating and deleting a task that does not exist (C3) *)

(** C3 as stated fails for PUT: with a well-formed id that matches no task
    and a body whose [priority] is outside the enum, the update validators
    reject the update before the collection is consulted, and the answer is
    400, not 404. *)
Lemma C3_put_invalid_body_counterexample :
  let id := str "000000000000000000000012" in
  let body := {| body_title := None; body_description := None;
                 body_completed := None; body_priority := Some (str "urgent") |} in
  castObjectId_hex24 id = Some 18%N
  /\ no_match 18%N []
  /\ put_task castObjectId_hex24 99 id body [] =
       ({| status := 400; success := false; count := None;
           message := Some "Error updating task"%string; data := None;
           error := Some (ValidationError [("priority"%string, Enum)]) |}, [])
  /\ status (put_task castObjectId_hex24 99 id body []).1 <> 404.
Proof.
  split; [reflexivity|]. split; [|split].
  - intros t Hin. by apply elem_of_nil in Hin.
  - reflexivity.
  - vm_compute. discriminate.
Qed.

(** C3, amended.  For a well-formed id that matches no task: DELETE
    answers 404 with [success: false] and "Task not found"; PUT answers the
    same when its body passes the update validators, and 400 with the failed
    validators when it does not; in every case the collection is left as it
    was. *)
Theorem C3_no_match_not_found (castObjectId : jsstring -> option ObjectId)
  (now : Z) (id : jsstring) (body : Body) (c : collection) (k : ObjectId) :
  castObjectId id = Some k -> no_match k c ->
  (update_valid body ->
     put_task castObjectId now id body c =
       ({| status := 404; success := false; count := None;
           message := Some "Task not found"%string; data := None;
           error := None |}, c))
  /\ (~ update_valid body ->
        put_task castObjectId now id body c =
          ({| status := 400; success := false; count := None;
              message := Some "Error updating task"%string; data := None;
              error := Some (ValidationError (validateUpdate (castUpdate body))) |}, c))
  /\ delete_task castObjectId id c =
       ({| status := 404; success := false; count := None;
           message := Some "Task not found"%string; data := None;
           error := None |}, c)
  /\ (put_task castObjectId now id body c).2 = c
  /\ (delete_task castObjectId id c).2 = c.
Proof.
  intros Hk Hno.
  pose proof (proj2 (lookup_id_None k c) Hno) as Hl.
  unfold put_task, delete_task, findByIdAndUpdate, findByIdAndDelete, castId,
    update_valid.
  rewrite Hk. simpl. rewrite Hl.
  destruct (validateUpdate (castUpdate body)) as [|e failed] eqn:Hv;
    repeat split; done.
Qed.

Lemma C3_no_match_not_found_witness :
  let id := str "000000000000000000000012" in
  let t := mkTask 17%N (str "Buy milk") (str "default value") false medium 5 5 in
  let body := {| body_title := None; body_description := None;
                 body_completed := Some true; body_priority := None |} in
  put_task castObjectId_hex24 99 id body [t] =
    ({| status := 404; success := false; count := None;
        message := Some "Task not found"%string; data := None;
        error := None |}, [t])
  /\ delete_task castObjectId_hex24 id [t] =
    ({| status := 404; success := false; count := None;
        message := Some "Task not found"%string; data := None;
        error := None |}, [t]).
Proof.
  intros id t body.
  destruct (C3_no_match_not_found castObjectId_hex24 99 id body [t] 18%N)
    as (Hput & _ & Hdel & _).
  - reflexivity.
  - intros t' Hin. apply list_elem_of_singleton in Hin. by subst t'.
  - split; [apply Hput; reflexivity | exact Hdel].
Defined.

(** ** Defaults of a created task (C5) *)

Lemma create_defaults now oid t c :
  ~ blank t -> no_match oid c ->
  create now oid
    {| body_title := Some t; body_description := None;
       body_completed := None; body_priority := None |} c
  = let task := {| _id := oid; title := trim t;
                   description := str "default value"; completed := false;
                   priority := medium; createdAt := now; updatedAt := now |} in
    Return (task, c ++ [task]).
Proof.
  intros Hb Hno. apply lookup_id_None in Hno.
  assert (Ht : trim t <> []) by (intros H; by apply Hb, trim_nil_blank).
  unfold create, construct, validate.
  cbn [body_title body_description body_completed body_priority fmap
       option_fmap option_map setter title_path path_trim path_default or_default].
  destruct (trim t) as [|x s] eqn:Htrim; [done|].
  cbn. by rewrite Hno.
Qed.

(** C5.  A create request that gives a usable title and omits the optional
    fields, with a key no task has yet, is answered 201 and stores exactly
    one new task, the one returned; its [completed] is false, its [priority]
    is medium and its [description] is the placeholder text "default value".
    And whenever a create request omitting the optional fields changes the
    collection at all, it is in this way. *)
Theorem C5_defaults_on_create (now : Z) (oid : ObjectId) (body : Body) (c : collection) :
  body_description body = None ->
  body_completed body = None ->
  body_priority body = None ->
  (forall t, body_title body = Some t -> ~ blank t -> no_match oid c ->
     exists task,
       post_task now oid body c =
         ({| status := 201; success := true; count := None;
             message := Some "Task created successfully"%string;
             data := Some (OneTask task); error := None |}, c ++ [task])
       /\ completed task = false
       /\ priority task = medium
       /\ description task = str "default value")
  /\ (forall r c', post_task now oid body c = (r, c') ->
        c' = c \/
        exists task, c' = c ++ [task] /\ data r = Some (OneTask task)
          /\ completed task = false /\ priority task = medium
          /\ description task = str "default value").
Proof.
  destruct body as [bt bd bc bp]. simpl. intros -> -> ->. split.
  - intros t -> Hb Hno. eexists. unfold post_task.
    rewrite (create_defaults now oid t c Hb Hno). simpl. eauto.
  - intros r c' Hpost.
    destruct bt as [t|].
    + destruct (decide (blank t)) as [Hb|Hb].
      * destruct (create_title_missing now oid
          {| body_title := Some t; body_description := None;
             body_completed := None; body_priority := None |} c Hb) as [rest Hc].
        unfold post_task in Hpost. rewrite Hc in Hpost.
        left. by inversion Hpost.
      * destruct (lookup_id oid c) as [t'|] eqn:Hl.
        -- left. revert Hpost. unfold post_task, create.
           destruct (validate _); [|by inversion 1].
           destruct (document _ _ _); [|by inversion 1].
           rewrite Hl. by inversion 1.
        -- apply lookup_id_None in Hl. unfold post_task in Hpost.
           rewrite (create_defaults now oid t c Hb Hl) in Hpost. simpl in Hpost.
           right. inversion Hpost; subst. eexists. simpl. eauto.
    + destruct (create_title_missing now oid
          {| body_title := None; body_description := None;
             body_completed := None; body_priority := None |} c I) as [rest Hc].
      unfold post_task in Hpost. rewrite Hc in Hpost.
      left. by inversion Hpost.
Qed.

Lemma C5_defaults_on_create_witness :
  exists task,
    post_task 1000 7%N
      {| body_title := Some (str " Buy milk "); body_description := None;
         body_completed := None; body_priority := None |} []
    = ({| status := 201; success := true; count := None;
          message := Some "Task created successfully"%string;
          data := Some (OneTask task); error := None |}, [] ++ [task])
    /\ completed task = false
    /\ priority task = medium
    /\ description task = str "default value".
Proof.
  destruct (C5_defaults_on_create 1000 7%N
    {| body_title := Some (str " Buy milk "); body_description := None;
       body_completed := None; body_priority := None |} [] eq_refl eq_refl eq_refl)
    as [H _].
  apply (H (str " Buy milk ") eq_refl).
  - intros Hb. apply trim_blank in Hb. vm_compute in Hb. discriminate Hb.
  - intros t Hin. by apply elem_of_nil in Hin.
Defined.

Example post_task_example :
  post_task 1000 7%N
    {| body_title := Some (str " Buy milk "); body_description := None;
       body_completed := None; body_priority := None |} []
  = let task := mkTask 7%N (str "Buy milk") (str "default value") false medium
                  1000 1000 in
    ({| status := 201; success := true; count := None;
        message := Some "Task created successfully"%string;
        data := Some (OneTask task); error := None |}, [task]).
Proof. vm_compute. reflexivity. Qed.

(** ** The stable sort *)

Section SortFacts.
Context {A : Type} (cmp : A -> A -> Z).

Lemma sort_insert_Permutation x l : sort_insert cmp x l ≡ₚ x :: l.
Proof.
  induction l as [|y l IH]; simpl; [done|].
  destruct (cmp x y <=? 0); [done|].
  rewrite IH. apply perm_swap.
Qed.

Lemma Array_sort_Permutation l : Array_sort cmp l ≡ₚ l.
Proof.
  induction l as [|x l IH]; simpl; [done|].
  by rewrite sort_insert_Permutation, IH.
Qed.

Lemma sort_insert_skip x l1 l2 :
  Forall (fun y => 0 < cmp x y) l1 ->
  sort_insert cmp x (l1 ++ l2) = l1 ++ sort_insert cmp x l2.
Proof.
  induction 1 as [|y l1 Hy _ IH]; simpl; [done|].
  destruct (Z.leb_spec (cmp x y) 0); [lia|]. by rewrite IH.
Qed.

Lemma sort_insert_stop x l :
  Forall (fun y => cmp x y <= 0) l -> sort_insert cmp x l = x :: l.
Proof.
  destruct 1 as [|y l Hy _]; simpl; [done|].
  destruct (Z.leb_spec (cmp x y) 0); [done|lia].
Qed.

End SortFacts.

Lemma List_filter_Permutation {A} (f : A -> bool) (l l' : list A) :
  l ≡ₚ l' -> List.filter f l ≡ₚ List.filter f l'.
Proof.
  induction 1 as [|x l l' _ IH|x y l|l l' l'' _ IH1 _ IH2]; simpl.
  - done.
  - destruct (f x); [by constructor | done].
  - destruct (f x), (f y); try done. apply perm_swap.
  - by rewrite IH1.
Qed.

Lemma StronglySorted_lookup {A} (R : relation A) l i j a b :
  StronglySorted R l -> l !! i = Some a -> l !! j = Some b -> (i < j)%nat -> R a b.
Proof.
  intros Hs. revert i j. induction Hs as [|x l _ IH Hx]; intros i j Hi Hj Hlt.
  - by rewrite lookup_nil in Hi.
  - destruct j as [|j]; [lia|]. destruct i as [|i]; simpl in *.
    + inversion Hi; subst. rewrite Forall_forall in Hx.
      apply Hx. by eapply list_elem_of_lookup_2.
    + apply (IH i j); auto with lia.
Qed.

(** ** Filters of the list view (C9) *)

Lemma filtered_all tasks : TaskList.filtered TaskList.show_all tasks = tasks.
Proof.
  unfold TaskList.filtered. induction tasks as [|t l IH]; simpl; [done|].
  by rewrite IH.
Qed.

Lemma filtered_interleaved tasks :
  Interleaved (TaskList.filtered TaskList.show_active tasks)
              (TaskList.filtered TaskList.show_completed tasks) tasks.
Proof.
  unfold TaskList.filtered. induction tasks as [|t l IH]; simpl; [constructor|].
  destruct (completed t); simpl; by constructor.
Qed.

Lemma Interleaved_Permutation {A} (l1 l2 l : list A) :
  Interleaved l1 l2 l -> l1 ++ l2 ≡ₚ l.
Proof.
  induction 1 as [|x l1 l2 l _ IH|x l1 l2 l _ IH]; simpl.
  - done.
  - by rewrite IH.
  - by rewrite <- Permutation_middle, IH.
Qed.

Lemma filtered_elem filter tasks t :
  t ∈ TaskList.filtered filter tasks <-> t ∈ tasks /\ TaskList.keeps filter t = true.
Proof.
  unfold TaskList.filtered. rewrite !list_elem_of_In. apply filter_In.
Qed.

(** C9.  The "active" filter keeps exactly the tasks of the list whose
    [completed] is false and the "completed" filter exactly those whose
    [completed] is true.  They split every task list in two: no task is in
    both results, the list is the two results woven together with each in
    its own order, and it is also what the filter "all" gives.  The lists
    the view shows under the two filters, for whatever sort order, together
    hold the tasks shown under "all". *)
Theorem C9_filters_partition (tasks : list Task) :
  (forall t, t ∈ TaskList.filtered TaskList.show_active tasks
             <-> t ∈ tasks /\ completed t = false)
  /\ (forall t, t ∈ TaskList.filtered TaskList.show_completed tasks
                <-> t ∈ tasks /\ completed t = true)
  /\ (forall t, ~ (t ∈ TaskList.filtered TaskList.show_active tasks
                   /\ t ∈ TaskList.filtered TaskList.show_completed tasks))
  /\ Interleaved (TaskList.filtered TaskList.show_active tasks)
                 (TaskList.filtered TaskList.show_completed tasks)
                 (TaskList.filtered TaskList.show_all tasks)
  /\ TaskList.filtered TaskList.show_all tasks = tasks
  /\ (forall toLowerCase localeCompare sortBy,
        TaskList.filteredAndSortedTasks toLowerCase localeCompare
          TaskList.show_active sortBy tasks
        ++ TaskList.filteredAndSortedTasks toLowerCase localeCompare
             TaskList.show_completed sortBy tasks
        ≡ₚ TaskList.filteredAndSortedTasks toLowerCase localeCompare
             TaskList.show_all sortBy tasks).
Proof.
  split; [|split; [|split; [|split; [|split]]]].
  - intros t. rewrite filtered_elem. cbn [TaskList.keeps].
    by rewrite negb_true_iff.
  - intros t. by rewrite filtered_elem.
  - intros t [Ha Hc].
    apply filtered_elem in Ha as [_ Ha]. apply filtered_elem in Hc as [_ Hc].
    simpl in Ha, Hc. rewrite Hc in Ha. discriminate Ha.
  - rewrite filtered_all. apply filtered_interleaved.
  - apply filtered_all.
  - intros tl lc sortBy. unfold TaskList.filteredAndSortedTasks.
    rewrite !Array_sort_Permutation, filtered_all.
    apply Interleaved_Permutation, filtered_interleaved.
Qed.

Lemma C9_filters_partition_witness :
  let t1 := mkTask 1%N (str "a") [] false low 10 10 in
  let t2 := mkTask 2%N (str "b") [] true high 30 30 in
  let t3 := mkTask 3%N (str "c") [] false medium 20 25 in
  (t1 ∈ TaskList.filtered TaskList.show_active [t1; t2; t3])
  /\ (t2 ∉ TaskList.filtered TaskList.show_active [t1; t2; t3])
  /\ (t2 ∈ TaskList.filtered TaskList.show_completed [t1; t2; t3])
  /\ (t3 ∉ TaskList.filtered TaskList.show_completed [t1; t2; t3])
  /\ Interleaved (TaskList.filtered TaskList.show_active [t1; t2; t3])
                 (TaskList.filtered TaskList.show_completed [t1; t2; t3])
                 (TaskList.filtered TaskList.show_all [t1; t2; t3])
  /\ TaskList.filtered TaskList.show_all [t1; t2; t3] = [t1; t2; t3].
Proof.
  intros t1 t2 t3.
  destruct (C9_filters_partition [t1; t2; t3])
    as (Hactive & Hcompleted & _ & Hweave & Hall & _).
  split; [|split; [|split; [|split; [|split]]]].
  - apply Hactive. split; [by left | reflexivity].
  - intros H. apply Hactive in H as [_ H]. discriminate H.
  - apply Hcompleted. split; [by right; left | reflexivity].
  - intros H. apply Hcompleted in H as [_ H]. discriminate H.
  - exact Hweave.
  - exact Hall.
Defined.

Example filtered_example :
  let t1 := mkTask 1%N (str "a") [] false low 10 10 in
  let t2 := mkTask 2%N (str "b") [] true high 30 30 in
  let t3 := mkTask 3%N (str "c") [] false medium 20 25 in
  TaskList.filtered TaskList.show_active [t1; t2; t3] = [t1; t3]
  /\ TaskList.filtered TaskList.show_completed [t1; t2; t3] = [t2].
Proof. split; reflexivity. Qed.

(** ** Sorting by priority (C7) *)

Section PrioritySort.
Variable toLowerCase : jsstring -> jsstring.
Variable localeCompare : jsstring -> jsstring -> Z.

#[local] Abbreviation by_priority_cmp :=
  (TaskList.comparator toLowerCase localeCompare TaskList.by_priority).

Lemma with_priority_Forall p l : Forall (fun t => priority t = p) (with_priority p l).
Proof.
  apply Forall_forall. intros t Hin.
  apply list_elem_of_In, filter_In in Hin as [_ Hp].
  by apply bool_decide_eq_true in Hp.
Qed.

Lemma with_priority_cons p t l :
  with_priority p (t :: l) =
    if bool_decide (priority t = p) then t :: with_priority p l else with_priority p l.
Proof. reflexivity. Qed.

Lemma with_priority_app p l1 l2 :
  with_priority p (l1 ++ l2) = with_priority p l1 ++ with_priority p l2.
Proof. apply List.filter_app. Qed.

Lemma with_priority_same p l :
  Forall (fun t => priority t = p) l -> with_priority p l = l.
Proof.
  induction 1 as [|t l Ht _ IH]; [done|].
  rewrite with_priority_cons, IH. by rewrite bool_decide_eq_true_2.
Qed.

Lemma with_priority_other p q l :
  p <> q -> Forall (fun t => priority t = q) l -> with_priority p l = [].
Proof.
  intros Hpq. induction 1 as [|t l Ht _ IH]; [done|].
  rewrite with_priority_cons, IH. rewrite bool_decide_eq_false_2; congruence.
Qed.

(** The result of the priority sort, in closed form: the high tasks, then
    the medium ones, then the low ones, each group in the order of the
    input. *)
Lemma Array_sort_by_priority l :
  Array_sort by_priority_cmp l =
    with_priority high l ++ with_priority medium l ++ with_priority low l.
Proof.
  induction l as [|x l IH]; [done|].
  simpl Array_sort. fold (Array_sort by_priority_cmp l). rewrite IH.
  pose proof (with_priority_Forall high l) as Hh.
  pose proof (with_priority_Forall medium l) as Hm.
  pose proof (with_priority_Forall low l) as Hl.
  rewrite !with_priority_cons.
  destruct (priority x) eqn:Hx; simpl bool_decide; cbn [app].
  - rewrite sort_insert_skip.
    2:{ eapply Forall_impl; [exact Hh|]. simpl. intros t ->. rewrite Hx. simpl. lia. }
    rewrite sort_insert_skip.
    2:{ eapply Forall_impl; [exact Hm|]. simpl. intros t ->. rewrite Hx. simpl. lia. }
    rewrite sort_insert_stop; [done|].
    eapply Forall_impl; [exact Hl|]. simpl. intros t ->. rewrite Hx. simpl. lia.
  - rewrite sort_insert_skip.
    2:{ eapply Forall_impl; [exact Hh|]. simpl. intros t ->. rewrite Hx. simpl. lia. }
    rewrite sort_insert_stop; [done|].
    apply Forall_app; split.
    + eapply Forall_impl; [exact Hm|]. simpl. intros t ->. rewrite Hx. simpl. lia.
    + eapply Forall_impl; [exact Hl|]. simpl. intros t ->. rewrite Hx. simpl. lia.
  - rewrite sort_insert_stop; [done|].
    apply Forall_forall. intros t _. simpl. rewrite Hx.
    destruct (priority t); simpl; lia.
Qed.

Lemma same_priority_sorted p l :
  Forall (fun t => priority t = p) l -> StronglySorted by_rank l.
Proof.
  induction 1 as [|t l Ht Hl IH]; constructor; [done|].
  eapply Forall_impl; [exact Hl|]. simpl. intros t' Ht'.
  unfold by_rank. rewrite Ht, Ht'. lia.
Qed.

Lemma Array_sort_by_priority_sorted l :
  StronglySorted by_rank (Array_sort by_priority_cmp l).
Proof.
  rewrite Array_sort_by_priority.
  pose proof (with_priority_Forall high l) as Hh.
  pose proof (with_priority_Forall medium l) as Hm.
  pose proof (with_priority_Forall low l) as Hl.
  rewrite Forall_forall in Hh, Hm, Hl.
  apply StronglySorted_app; split; [|split].
  - intros a b Ha Hb. unfold by_rank. rewrite (Hh a Ha).
    destruct (priority b); simpl; lia.
  - eapply same_priority_sorted, with_priority_Forall.
  - apply StronglySorted_app; split; [|split].
    + intros a b Ha Hb. unfold by_rank. rewrite (Hm a Ha), (Hl b Hb). simpl. lia.
    + eapply same_priority_sorted, with_priority_Forall.
    + eapply same_priority_sorted, with_priority_Forall.
Qed.

Lemma Array_sort_by_priority_stable p l :
  with_priority p (Array_sort by_priority_cmp l) = with_priority p l.
Proof.
  rewrite Array_sort_by_priority, !with_priority_app.
  pose proof (with_priority_Forall high l) as Hh.
  pose proof (with_priority_Forall medium l) as Hm.
  pose proof (with_priority_Forall low l) as Hl.
  destruct p.
  - rewrite (with_priority_other low high _ ltac:(done) Hh),
      (with_priority_other low medium _ ltac:(done) Hm),
      (with_priority_same low _ Hl). done.
  - rewrite (with_priority_other medium high _ ltac:(done) Hh),
      (with_priority_other medium low _ ltac:(done) Hl),
      (with_priority_same medium _ Hm). simpl. apply app_nil_r.
  - rewrite (with_priority_other high medium _ ltac:(done) Hm),
      (with_priority_other high low _ ltac:(done) Hl),
      (with_priority_same high _ Hh). simpl. apply app_nil_r.
Qed.

Lemma sorted_Before (p q : Priority) l :
  TaskList.priorityOrder q < TaskList.priorityOrder p ->
  StronglySorted by_rank l ->
  Before (fun t => priority t = p) (fun t => priority t = q) l.
Proof.
  intros Hpq Hs i j a b Hi Hj Ha Hb.
  destruct (Nat.lt_trichotomy i j) as [Hlt|[Heq|Hgt]]; [done| |].
  - subst j. assert (a = b) as -> by congruence.
    rewrite Ha in Hb. subst q. lia.
  - pose proof (StronglySorted_lookup by_rank l j i b a Hs Hj Hi Hgt) as Hr.
    unfold by_rank in Hr. rewrite Ha, Hb in Hr. lia.
Qed.

#[local] Instance rank_descending_trans : Transitive rank_descending.
Proof. intros p q r. unfold rank_descending. lia. Qed.

#[local] Instance rank_descending_antisymm : AntiSymm (=) rank_descending.
Proof.
  intros p q. unfold rank_descending.
  destruct p, q; simpl; intros; try done; lia.
Qed.

(** C7.  For every task list and filter, the list the view shows under the
    priority sort is a rearrangement of the filtered tasks in which every
    high task stands before every medium task, every medium before every
    low, and every high before every low; the tasks of each priority stand
    in the order they had in the input; and the sequence of priorities shown
    is the same for every order of the same input tasks. *)
Theorem C7_priority_sort (filter : TaskList.filter_option) (tasks : list Task) :
  let input := TaskList.filtered filter tasks in
  let shown := TaskList.filteredAndSortedTasks toLowerCase localeCompare
                 filter TaskList.by_priority tasks in
  shown ≡ₚ input
  /\ Before (fun t => priority t = high) (fun t => priority t = medium) shown
  /\ Before (fun t => priority t = medium) (fun t => priority t = low) shown
  /\ Before (fun t => priority t = high) (fun t => priority t = low) shown
  /\ (forall p, with_priority p shown = with_priority p input)
  /\ (forall tasks', tasks' ≡ₚ tasks ->
        priority <$> TaskList.filteredAndSortedTasks toLowerCase localeCompare
                       filter TaskList.by_priority tasks'
        = priority <$> shown).
Proof.
  intros input shown. unfold shown, input, TaskList.filteredAndSortedTasks.
  pose proof (Array_sort_by_priority_sorted (TaskList.filtered filter tasks)) as Hs.
  split; [apply Array_sort_Permutation|].
  split; [by apply sorted_Before|].
  split; [by apply sorted_Before|].
  split; [by apply sorted_Before|].
  split; [intros p; apply Array_sort_by_priority_stable|].
  intros tasks' Hp.
  apply (StronglySorted_unique rank_descending).
  - apply (StronglySorted_fmap _ by_rank); [done|].
    apply Array_sort_by_priority_sorted.
  - by apply (StronglySorted_fmap _ by_rank).
  - apply fmap_Permutation. rewrite !Array_sort_Permutation.
    by apply List_filter_Permutation.
Qed.

End PrioritySort.

Lemma C7_priority_sort_witness :
  let t1 := mkTask 1%N (str "a") [] false low 10 10 in
  let t2 := mkTask 2%N (str "b") [] true medium 30 30 in
  let t3 := mkTask 3%N (str "c") [] false high 20 25 in
  let t4 := mkTask 4%N (str "d") [] false medium 40 40 in
  let shown := TaskList.filteredAndSortedTasks (fun s => s) (fun _ _ => 0)
                 TaskList.show_all TaskList.by_priority [t1; t2; t3; t4] in
  shown ≡ₚ TaskList.filtered TaskList.show_all [t1; t2; t3; t4]
  /\ Before (fun t => priority t = high) (fun t => priority t = medium) shown
  /\ with_priority medium shown
     = with_priority medium (TaskList.filtered TaskList.show_all [t1; t2; t3; t4]).
Proof.
  intros t1 t2 t3 t4 shown.
  destruct (C7_priority_sort (fun s => s) (fun _ _ => 0) TaskList.show_all
              [t1; t2; t3; t4]) as (Hperm & Hhm & _ & _ & Hstable & _).
  split; [exact Hperm|]. split; [exact Hhm | exact (Hstable medium)].
Defined.

Example priority_sort_example :
  let t1 := mkTask 1%N (str "a") [] false low 10 10 in
  let t2 := mkTask 2%N (str "b") [] true medium 30 30 in
  let t3 := mkTask 3%N (str "c") [] false high 20 25 in
  let t4 := mkTask 4%N (str "d") [] false medium 40 40 in
  forall tl lc,
    TaskList.filteredAndSortedTasks tl lc TaskList.show_all TaskList.by_priority
      [t1; t2; t3; t4] = [t3; t2; t4; t1]
    /\ TaskList.filteredAndSortedTasks tl lc TaskList.show_all TaskList.by_priority
      [t4; t1; t3; t2] = [t3; t4; t2; t1].
Proof. intros; split; reflexivity. Qed.

(** ** The completion percentage (C8) *)











(** At a half the result goes either way: 1 of 8 is 12.5 and shows 13, as
    the exact rounding does; 29 of 200 is 14.5 and shows 14. *)
Example percentage_at_a_half :
  halfway 1 8 /\ halfway 29 200
  /\ TaskStats.completionPercentage (sample_tasks 1 8) = num_of_Z (percentage_spec 1 8)
  /\ percentage_spec 29 200 = 15
  /\ TaskStats.completionPercentage (sample_tasks 29 200) = num_of_Z 14.
Proof. repeat split; vm_compute; reflexivity. Qed.

(** ** The response interceptor (C10) *)

Lemma onFulfilled_envelope st fields :
  TaskService.onFulfilled
    {| TaskService.response_status := st;
       TaskService.response_data := JObject fields |}
  = Return (or_else (default JUndefined (fields !! "data"%string)) (JObject fields)).
Proof. reflexivity. Qed.

(** C10.  For a successful response whose body is an envelope (an object),
    the interceptor returns the [data] field of the envelope when that field
    is truthy, and the whole envelope when the field is missing or falsy; in
    no case does it return [undefined]. *)
Theorem C10_interceptor_unwraps (st : Z) (fields : gmap string value) :
  let envelope := JObject fields in
  let response := {| TaskService.response_status := st;
                     TaskService.response_data := envelope |} in
  (forall d, fields !! "data"%string = Some d -> truthy d = true ->
     TaskService.onFulfilled response = Return d)
  /\ (forall d, fields !! "data"%string = Some d -> truthy d = false ->
        TaskService.onFulfilled response = Return envelope)
  /\ (fields !! "data"%string = None ->
        TaskService.onFulfilled response = Return envelope)
  /\ TaskService.onFulfilled response <> Return JUndefined
  /\ exists v, TaskService.onFulfilled response = Return v.
Proof.
  intros envelope response. unfold response, envelope.
  rewrite onFulfilled_envelope. unfold or_else.
  split; [|split; [|split; [|split]]].
  - intros d -> Hd. simpl. by rewrite Hd.
  - intros d -> Hd. simpl. by rewrite Hd.
  - intros ->. done.
  - destruct (truthy (default JUndefined (fields !! "data"%string))) eqn:Ht.
    + intros H. inversion H as [Hu]. rewrite Hu in Ht. discriminate Ht.
    + discriminate.
  - eauto.
Qed.

Lemma C10_interceptor_unwraps_witness :
  let task := JObject {[ "title"%string := JString (str "Buy milk") ]} in
  TaskService.onFulfilled
    {| TaskService.response_status := 201;
       TaskService.response_data :=
         JObject (<[ "data"%string := task ]> {[ "success"%string := JBool true ]}) |}
  = Return task
  /\ TaskService.onFulfilled
       {| TaskService.response_status := 200;
          TaskService.response_data := JObject {[ "success"%string := JBool true ]} |}
     = Return (JObject {[ "success"%string := JBool true ]})
  /\ TaskService.onFulfilled
       {| TaskService.response_status := 200;
          TaskService.response_data :=
            JObject (<[ "data"%string := JNumber (num_of_Z 0) ]>
                       {[ "success"%string := JBool true ]}) |}
     = Return (JObject (<[ "data"%string := JNumber (num_of_Z 0) ]>
                          {[ "success"%string := JBool true ]})).
Proof.
  intros task. split; [|split].
  - destruct (C10_interceptor_unwraps 201
      (<[ "data"%string := task ]> {[ "success"%string := JBool true ]}))
      as (H & _).
    apply H; reflexivity.
  - destruct (C10_interceptor_unwraps 200 {[ "success"%string := JBool true ]})
      as (_ & _ & H & _).
    apply H; reflexivity.
  - destruct (C10_interceptor_unwraps 200
      (<[ "data"%string := JNumber (num_of_Z 0) ]>
         {[ "success"%string := JBool true ]}))
      as (_ & H & _).
    apply (H (JNumber (num_of_Z 0))); reflexivity.
Defined.

(** Outside the envelopes: a body that is [null] makes the interceptor
    throw, and a body that is a string is returned as it is. *)
Example onFulfilled_other_bodies :
  (exists e, TaskService.onFulfilled
     {| TaskService.response_status := 200; TaskService.response_data := JNull |}
     = Throw e)
  /\ TaskService.onFulfilled
       {| TaskService.response_status := 204;
          TaskService.response_data := JString [] |}
     = Return (JString []).
Proof. split; [eexists|]; reflexivity. Qed.

(** ** Submitting the form (C6) *)

Lemma trim_blank_nil s : blank (trim s) -> trim s = [].
Proof.
  unfold trim, trimEnd.
  destruct (trimStart_head (rev (trimStart s))) as [->|(c & b & Hb & Hc)]; [done|].
  rewrite Hb. simpl. intros H.
  unfold blank in H. rewrite Forall_app, Forall_singleton in H.
  destruct H as [_ H]. congruence.
Qed.

Lemma validateForm_title f :
  TaskForm.validateForm f = true -> trim (TaskForm.title f) <> [].
Proof.
  unfold TaskForm.validateForm, TaskForm.newErrors. simpl.
  destruct (bool_decide (trim (TaskForm.title f) = [])) eqn:Hb; [done|].
  intros _. by apply bool_decide_eq_false in Hb.
Qed.

Lemma createTask_valid api f sent :
  TaskForm.validateForm f = true ->
  TaskService.createTask api (TaskForm.dataToSubmit f) sent =
    (api (TaskService.POST_tasks (TaskForm.dataToSubmit f)),
     sent ++ [TaskService.POST_tasks (TaskForm.dataToSubmit f)]).
Proof.
  intros Hv. apply validateForm_title in Hv.
  unfold TaskService.createTask. cbn [TaskForm.dataToSubmit body_title].
  rewrite (bool_decide_eq_false_2 _ Hv). simpl.
  rewrite bool_decide_eq_false_2; [done|].
  intros H. apply Hv, trim_blank_nil, trim_nil_blank, H.
Qed.

Lemma handleSubmit_valid {W} isEditing
  (onSubmit : Body -> W -> completion unit * W) f w :
  TaskForm.validateForm (TaskForm.formData f) = true ->
  TaskForm.handleSubmit isEditing onSubmit f w =
    match onSubmit (TaskForm.dataToSubmit (TaskForm.formData f)) w with
    | (Return _, w') =>
        ({| TaskForm.formData :=
              if negb isEditing then TaskForm.emptyForm else TaskForm.formData f;
            TaskForm.isSubmitting := false;
            TaskForm.errors := TaskForm.noErrors |}, w')
    | (Throw e, w') =>
        ({| TaskForm.formData := TaskForm.formData f;
            TaskForm.isSubmitting := false;
            TaskForm.errors :=
              {| TaskForm.errors_title := None; TaskForm.errors_description := None;
                 TaskForm.errors_submit := Some (TaskForm.submitMessage e) |} |}, w')
    end.
Proof. intros Hv. unfold TaskForm.handleSubmit. by rewrite Hv. Qed.

(** In create mode a valid submission sends one POST and empties the form,
    whatever the request resolves to: [handleCreateTask] never throws. *)
Lemma submit_create api f s :
  TaskForm.validateForm (TaskForm.formData f) = true ->
  App.editingTask s = None ->
  let data := TaskForm.dataToSubmit (TaskForm.formData f) in
  TaskForm.formData (TaskForm.submit api f s).1 = TaskForm.emptyForm
  /\ App.sent (TaskForm.submit api f s).2 = App.sent s ++ [TaskService.POST_tasks data]
  /\ App.tasks (TaskForm.submit api f s).2 =
       match api (TaskService.POST_tasks data) with
       | Return newTask => newTask :: App.tasks s
       | Throw _ => App.tasks s
       end.
Proof.
  intros Hv He data. unfold TaskForm.submit.
  rewrite (handleSubmit_valid _ _ _ _ Hv).
  unfold App.onSubmit, App.isEditing, App.initialData. rewrite He.
  unfold App.handleCreateTask. rewrite (createTask_valid _ _ _ Hv).
  fold data. destruct (api (TaskService.POST_tasks data)); simpl; rewrite He; done.
Qed.

(** In edit mode a valid submission sends one PUT for the edited task;
    [handleSubmit] leaves the fields alone; a failed update keeps the form
    and the edit mode, a successful one ends the edit mode, upon which the
    effect empties the form. *)
Lemma submit_update api f s t :
  TaskForm.validateForm (TaskForm.formData f) = true ->
  App.editingTask s = Some t ->
  let data := TaskForm.dataToSubmit (TaskForm.formData f) in
  App.sent (TaskForm.submit api f s).2 =
    App.sent s ++ [TaskService.PUT_tasks (_id t) data]
  /\ TaskForm.formData
       (TaskForm.handleSubmit (App.isEditing s) (App.onSubmit api s) f s).1
     = TaskForm.formData f
  /\ match api (TaskService.PUT_tasks (_id t) data) with
     | Return updatedTask =>
         App.editingTask (TaskForm.submit api f s).2 = None
         /\ TaskForm.formData (TaskForm.submit api f s).1 = TaskForm.emptyForm
     | Throw _ =>
         App.editingTask (TaskForm.submit api f s).2 = Some t
         /\ App.tasks (TaskForm.submit api f s).2 = App.tasks s
         /\ TaskForm.formData (TaskForm.submit api f s).1 = TaskForm.formData f
     end.
Proof.
  intros Hv He data. unfold TaskForm.submit.
  rewrite (handleSubmit_valid _ _ _ _ Hv).
  unfold App.onSubmit, App.isEditing, App.initialData. rewrite He.
  unfold App.handleUpdateTask, TaskService.updateTask. fold data.
  destruct (api (TaskService.PUT_tasks (_id t) data)); simpl.
  - by repeat split.
  - rewrite He. repeat split. unfold TaskForm.rerender. by rewrite decide_True.
Qed.

(** C6 as stated fails in both directions.  In create mode, with a request
    that is rejected, no task is created and the error banner is set, yet
    the form is emptied: [handleCreateTask] catches the rejection, so the
    [await] in [handleSubmit] returns normally.  In edit mode, with a request
    that succeeds, [handleUpdateTask] clears [editingTask]; the form is
    rendered with new props and its effect empties the fields. *)
Lemma C6_reset_counterexample :
  let f := {| TaskForm.formData :=
                {| TaskForm.title := str " Buy milk ";
                   TaskForm.description := str "2 l";
                   TaskForm.priority := str "high" |};
              TaskForm.isSubmitting := false;
              TaskForm.errors := TaskForm.noErrors |} in
  let offline : TaskService.Transport :=
    fun _ => Throw (Error "Network error. Please check your internet connection.") in
  let s := {| App.tasks := []; App.loading := false; App.error := ""%string;
              App.editingTask := None; App.sent := [] |} in
  let t := mkTask 7%N (str "Buy bread") (str "default value") false medium 5 5 in
  let t' := mkTask 7%N (str "Buy milk") (str "2 l") false high 5 9 in
  let online : TaskService.Transport := fun _ => Return t' in
  let s' := {| App.tasks := [t]; App.loading := false; App.error := ""%string;
               App.editingTask := Some t; App.sent := [] |} in
  TaskForm.validateForm (TaskForm.formData f) = true
  /\ (App.tasks (TaskForm.submit offline f s).2 = []
      /\ App.error (TaskForm.submit offline f s).2
           = "Failed to create task. Please try again."%string
      /\ TaskForm.formData (TaskForm.submit offline f s).1 = TaskForm.emptyForm)
  /\ (App.tasks (TaskForm.submit online f s').2 = [t']
      /\ TaskForm.formData (TaskForm.submit online f s').1 = TaskForm.emptyForm
      /\ TaskForm.formData f <> TaskForm.emptyForm).
Proof.
  intros. split; [reflexivity|]. split.
  - repeat split; vm_compute; reflexivity.
  - split; [vm_compute; reflexivity|]. split; [vm_compute; reflexivity|].
    vm_compute. discriminate.
Qed.

(** C6, amended.  A submission that passes validation hands on the trimmed
    title and description.  In create mode it sends one POST with them, and
    when the creation succeeds the new task is put in front of the list and
    the fields are reset to their empty initial state.  In edit mode it
    sends one PUT for the edited task; [handleSubmit] itself leaves the
    fields as they are; when the update fails the form keeps its content and
    stays in edit mode; when it succeeds the edit mode ends, and with it the
    fields are reset. *)
Theorem C6_valid_submission (api : TaskService.Transport)
  (f : TaskForm.FormState) (s : App.State) :
  TaskForm.validateForm (TaskForm.formData f) = true ->
  let data := TaskForm.dataToSubmit (TaskForm.formData f) in
  body_title data = Some (trim (TaskForm.title (TaskForm.formData f)))
  /\ body_description data = Some (trim (TaskForm.description (TaskForm.formData f)))
  /\ (App.editingTask s = None ->
        App.sent (TaskForm.submit api f s).2
          = App.sent s ++ [TaskService.POST_tasks data]
        /\ forall newTask, api (TaskService.POST_tasks data) = Return newTask ->
             TaskForm.formData (TaskForm.submit api f s).1 = TaskForm.emptyForm
             /\ App.tasks (TaskForm.submit api f s).2 = newTask :: App.tasks s)
  /\ (forall t, App.editingTask s = Some t ->
        App.sent (TaskForm.submit api f s).2
          = App.sent s ++ [TaskService.PUT_tasks (_id t) data]
        /\ TaskForm.formData
             (TaskForm.handleSubmit (App.isEditing s) (App.onSubmit api s) f s).1
           = TaskForm.formData f
        /\ (forall e, api (TaskService.PUT_tasks (_id t) data) = Throw e ->
              App.editingTask (TaskForm.submit api f s).2 = Some t
              /\ TaskForm.formData (TaskForm.submit api f s).1 = TaskForm.formData f)
        /\ (forall updatedTask,
              api (TaskService.PUT_tasks (_id t) data) = Return updatedTask ->
              App.editingTask (TaskForm.submit api f s).2 = None
              /\ TaskForm.formData (TaskForm.submit api f s).1 = TaskForm.emptyForm)).
Proof.
  intros Hv data. split; [done|]. split; [done|]. split.
  - intros He. destruct (submit_create api f s Hv He) as (Hf & Hs & Ht).
    split; [exact Hs|]. intros newTask Hapi.
    fold data in Ht. rewrite Hapi in Ht. done.
  - intros t He. destruct (submit_update api f s t Hv He) as (Hs & Hh & Hr).
    fold data in Hr.
    split; [exact Hs|]. split; [exact Hh|]. split.
    + intros e Hapi. rewrite Hapi in Hr. tauto.
    + intros u Hapi. rewrite Hapi in Hr. tauto.
Qed.

Lemma C6_valid_submission_witness :
  let f := {| TaskForm.formData :=
                {| TaskForm.title := str " Buy milk ";
                   TaskForm.description := str "2 l";
                   TaskForm.priority := str "high" |};
              TaskForm.isSubmitting := false;
              TaskForm.errors := TaskForm.noErrors |} in
  let created := mkTask 7%N (str "Buy milk") (str "2 l") false high 5 5 in
  let online : TaskService.Transport := fun _ => Return created in
  let s := {| App.tasks := []; App.loading := false; App.error := ""%string;
              App.editingTask := None; App.sent := [] |} in
  App.sent (TaskForm.submit online f s).2
    = [] ++ [TaskService.POST_tasks (TaskForm.dataToSubmit (TaskForm.formData f))]
  /\ TaskForm.formData (TaskForm.submit online f s).1 = TaskForm.emptyForm
  /\ App.tasks (TaskForm.submit online f s).2 = [created].
Proof.
  intros f created online s.
  destruct (C6_valid_submission online f s eq_refl) as (_ & _ & Hcreate & _).
  destruct (Hcreate eq_refl) as [Hsent Hok].
  destruct (Hok created eq_refl) as [Hform Htasks].
  split; [exact Hsent|]. split; [exact Hform | exact Htasks].
Defined.

(** ** A session with the API *)

(** POST a title, PUT [completed: true] on the key, GET the list, DELETE
    the key, GET the key. *)
Example session :
  let cast := castObjectId_hex24 in
  let key := str "000000000000000000000007" in
  let created := mkTask 7%N (str "Buy milk") (str "default value") false medium 100 100 in
  let updated := mkTask 7%N (str "Buy milk") (str "default value") true medium 100 200 in
  let r1 := post_task 100 7%N
              {| body_title := Some (str "Buy milk"); body_description := None;
                 body_completed := None; body_priority := None |} [] in
  let r2 := put_task cast 200 key
              {| body_title := None; body_description := None;
                 body_completed := Some true; body_priority := None |} r1.2 in
  let r3 := get_tasks r2.2 in
  let r4 := delete_task cast key r3.2 in
  let r5 := get_task cast key r4.2 in
  (status r1.1, data r1.1) = (201, Some (OneTask created))
  /\ (status r2.1, data r2.1) = (200, Some (OneTask updated))
  /\ (status r3.1, count r3.1, data r3.1) = (200, Some 1%nat, Some (Tasks [updated]))
  /\ (status r4.1, data r4.1, r4.2) = (200, Some (OneTask updated), [])
  /\ (status r5.1, message r5.1) = (404, Some "Task not found"%string).
Proof. repeat split. Qed.

(* ===================================================================== *)
(** * Further properties *)
(* ===================================================================== *)

(** ** Trimming twice *)

Lemma trimStart_split s : exists p, s = p ++ trimStart s /\ blank p.
Proof.
  induction s as [|c s (p & Hs & Hp)]; simpl.
  - exists []. split; [done | apply Forall_nil_2].
  - destruct (isWhiteSpace c) eqn:Hc.
    + exists (c :: p). split; [simpl; congruence | by apply Forall_cons_2].
    + exists []. split; [done | apply Forall_nil_2].
Qed.

Lemma trimStart_fixed c s : isWhiteSpace c = false -> trimStart (c :: s) = c :: s.
Proof. intros H. simpl. by rewrite H. Qed.

Lemma trim_idempotent s : trim (trim s) = trim s.
Proof.
  assert (Htrim : trim s = rev (trimStart (rev (trimStart s)))) by reflexivity.
  rewrite Htrim. clear Htrim.
  destruct (trimStart_head (rev (trimStart s))) as [Hb|(c & b & Hb & Hc)].
  { rewrite Hb. reflexivity. }
  destruct (trimStart_split (rev (trimStart s))) as (p & Hsplit & _).
  rewrite Hb in *.
  assert (Ha : trimStart s = rev (c :: b) ++ rev p).
  { rewrite <- rev_app_distr, <- Hsplit. by rewrite rev_involutive. }
  assert (Hhead : exists h u, rev (c :: b) = h :: u /\ isWhiteSpace h = false).
  { destruct (trimStart_head s) as [Hs|(h & a & Hs & Hh)].
    - rewrite Hs in Ha. simpl in Ha. by destruct (rev b).
    - rewrite Hs in Ha. simpl in Ha |- *.
      destruct (rev b) as [|x r] eqn:Hr; simpl in Ha.
      + inversion Ha; subst. eauto.
      + inversion Ha; subst. eauto. }
  destruct Hhead as (h & u & Hu & Hh).
  unfold trim, trimEnd. rewrite Hu, (trimStart_fixed h u Hh), <- Hu.
  rewrite rev_involutive, (trimStart_fixed c b Hc). reflexivity.
Qed.

Lemma trim_default_description : trim (str "default value") = str "default value".
Proof. reflexivity. Qed.

(** ** What [create] and [findByIdAndUpdate] store *)

Lemma parse_priority_name s p : parse_priority s = Some p -> s = priority_name p.
Proof.
  unfold parse_priority. intros H. apply find_some in H as [_ H].
  by apply bool_decide_eq_true in H.
Qed.

Lemma parse_priority_of_name p : parse_priority (priority_name p) = Some p.
Proof. by destruct p. Qed.

Lemma parse_priority_valid s p :
  parse_priority s = Some p -> validators "priority" priority_path (Some s) = [].
Proof.
  intros H. apply parse_priority_name in H as ->. by destruct p.
Qed.

Lemma medium_in_enum : bool_decide (str "medium" ∈ [str "low"; str "medium"; str "high"]) = true.
Proof. apply bool_decide_eq_true. rewrite !elem_of_cons. auto. Qed.

Lemma create_Return now oid b c t c' :
  create now oid b c = Return (t, c') <->
  exists s p,
    body_title b = Some s /\ trim s <> []
    /\ match body_priority b with
       | Some raw => parse_priority raw = Some p
       | None => p = medium
       end
    /\ no_match oid c
    /\ t = {| _id := oid; title := trim s;
              description := match body_description b with
                             | Some d => trim d
                             | None => str "default value"
                             end;
              completed := default false (body_completed b);
              priority := p; createdAt := now; updatedAt := now |}
    /\ c' = c ++ [t].
Proof.
  destruct b as [bt bd bc bp]. unfold create, construct, validate, document.
  cbn [body_title body_description body_completed body_priority].
  split.
  - destruct bt as [s|]; [|by cbn].
    cbn -[parse_priority trim str bool_decide].
    destruct (trim s) as [|x s'] eqn:Hs; [by cbn|].
    destruct bp as [raw|]; cbn -[parse_priority trim str bool_decide].
    + destruct (bool_decide (raw ∈ [str "low"; str "medium"; str "high"])) eqn:Hin;
        [|done].
      apply bool_decide_eq_true, parse_priority_enum in Hin as [p Hp].
      rewrite Hp.
      destruct (lookup_id oid c) eqn:Hl;
        [by destruct bd, bc; cbn -[trim str]|].
      apply lookup_id_None in Hl.
      intros H. exists s, p. rewrite Hs.
      destruct bd, bc; cbn -[trim str] in H; inversion H; subst; by repeat split.
    + rewrite medium_in_enum.
      change (parse_priority (str "medium")) with (Some medium).
      destruct (lookup_id oid c) eqn:Hl;
        [by destruct bd, bc; cbn -[trim str]|].
      apply lookup_id_None in Hl.
      intros H. exists s, medium. rewrite Hs.
      destruct bd, bc; cbn -[trim str] in H; inversion H; subst; by repeat split.
  - intros (s & p & Hbt & Hs & Hp & Hno & -> & ->).
    cbn [body_title body_description body_completed body_priority] in *.
    subst bt. apply lookup_id_None in Hno.
    cbn -[parse_priority trim str bool_decide].
    destruct (trim s) as [|x s'] eqn:Htrim; [done|].
    destruct bp as [raw|]; cbn -[parse_priority trim str bool_decide].
    + pose proof (parse_priority_name raw p Hp) as Hraw.
      rewrite Hp. rewrite bool_decide_eq_true_2.
      2:{ subst raw. destruct p; rewrite !elem_of_cons; auto. }
      destruct bd, bc; cbn -[trim str]; by rewrite Hno.
    + subst p. rewrite medium_in_enum.
      change (parse_priority (str "medium")) with (Some medium).
      destruct bd, bc; cbn -[trim str]; by rewrite Hno.
Qed.

Lemma update_valid_iff b :
  update_valid b <->
  (forall s, body_title b = Some s -> trim s <> [])
  /\ (forall raw, body_priority b = Some raw -> exists p, parse_priority raw = Some p).
Proof.
  destruct b as [bt bd bc bp]. unfold update_valid, validateUpdate, castUpdate.
  cbn [body_title body_description body_completed body_priority].
  destruct bt as [s|], bd as [d|], bp as [raw|];
    cbn -[parse_priority trim str bool_decide];
    try destruct (trim s) as [|x s'] eqn:Hs;
    try destruct (bool_decide (raw ∈ [str "low"; str "medium"; str "high"])) eqn:Hin;
    try (apply bool_decide_eq_true in Hin; pose proof (parse_priority_enum raw Hin));
    try (apply bool_decide_eq_false in Hin);
    split; try done;
    try (intros _; split; [intros ? [= <-]; congruence | intros ? [= <-]; done]);
    try (intros [H1 H2]; try (by destruct (H1 s eq_refl));
         destruct (H2 raw eq_refl) as [p Hp]; destruct Hin;
         rewrite (parse_priority_name raw p Hp); destruct p;
         rewrite !elem_of_cons; auto).
Qed.

Lemma findByIdAndUpdate_Some castObjectId now id b c t' c' :
  findByIdAndUpdate castObjectId now id b c = Return (Some t', c') <->
  exists k t p,
    castObjectId id = Some k /\ lookup_id k c = Some t /\ update_valid b
    /\ match body_priority b with
       | Some raw => parse_priority raw = Some p
       | None => p = priority t
       end
    /\ t' = {| _id := _id t;
               title := match body_title b with Some s => trim s | None => title t end;
               description := match body_description b with
                              | Some d => trim d
                              | None => description t
                              end;
               completed := default (completed t) (body_completed b);
               priority := p; createdAt := createdAt t; updatedAt := now |}
    /\ c' = replace_id k t' c.
Proof.
  unfold findByIdAndUpdate, castId. split.
  - destruct (castObjectId id) as [k|] eqn:Hk; [|done]. cbn [bind].
    destruct (validateUpdate (castUpdate b)) eqn:Hv; [|done].
    destruct (lookup_id k c) as [t|] eqn:Hl; [|done].
    destruct (set_fields now (castUpdate b) t) as [u|] eqn:Hset; [|done].
    intros H. inversion H; subst. exists k, t.
    revert Hset. unfold set_fields, castUpdate.
    destruct b as [bt bd bc bp].
    cbn [body_title body_description body_completed body_priority].
    destruct bp as [raw|]; cbn -[parse_priority trim].
    + destruct (parse_priority raw) as [p|] eqn:Hp; [|done].
      cbn -[trim]. intros [= <-]. exists p.
      destruct bt, bd; cbn -[trim]; by repeat split.
    + intros [= <-]. exists (priority t).
      destruct bt, bd; cbn -[trim]; by repeat split.
  - intros (k & t & p & -> & Hl & Hv & Hp & -> & ->). cbn [bind].
    unfold update_valid in Hv. rewrite Hv, Hl.
    unfold set_fields, castUpdate. destruct b as [bt bd bc bp].
    cbn [body_title body_description body_completed body_priority] in *.
    destruct bp as [raw|]; cbn -[parse_priority trim].
    + rewrite Hp. by destruct bt, bd.
    + subst p. by destruct bt, bd.
Qed.

Lemma findByIdAndUpdate_None castObjectId now id b c c' :
  findByIdAndUpdate castObjectId now id b c = Return (None, c') ->
  c' = c.
Proof.
  unfold findByIdAndUpdate, castId.
  destruct (castObjectId id) as [k|]; [|done]. cbn [bind].
  destruct (validateUpdate (castUpdate b)); [|done].
  destruct (lookup_id k c) as [t|]; [|by intros [= <-]].
  by destruct (set_fields now (castUpdate b) t).
Qed.

Lemma findByIdAndDelete_Return castObjectId id c r c' :
  findByIdAndDelete castObjectId id c = Return (r, c') <->
  exists k, castObjectId id = Some k /\ r = lookup_id k c
    /\ c' = match lookup_id k c with Some _ => remove_id k c | None => c end.
Proof.
  unfold findByIdAndDelete, castId. split.
  - destruct (castObjectId id) as [k|]; [|done]. cbn [bind].
    destruct (lookup_id k c) eqn:Hl; intros [= <- <-]; exists k; by rewrite ?Hl.
  - intros (k & -> & -> & ->). cbn [bind]. by destruct (lookup_id k c).
Qed.

(** ** The collection under insertion, replacement and removal *)

Lemma has_id_true id t : has_id id t = true <-> _id t = id.
Proof. unfold has_id. apply N.eqb_eq. Qed.

Lemma has_id_false id t : has_id id t = false <-> _id t <> id.
Proof. unfold has_id. apply N.eqb_neq. Qed.

Lemma lookup_id_app id c t :
  lookup_id id (c ++ [t]) =
    match lookup_id id c with
    | Some u => Some u
    | None => if has_id id t then Some t else None
    end.
Proof.
  unfold lookup_id. induction c as [|u c IH]; simpl; [done|].
  by destruct (has_id id u).
Qed.

Lemma replace_id_length id t' c : length (replace_id id t' c) = length c.
Proof.
  induction c as [|u c IH]; simpl; [done|].
  destruct (has_id id u); simpl; congruence.
Qed.

Lemma replace_id_ids id t' c :
  _id t' = id -> _id <$> replace_id id t' c = _id <$> c.
Proof.
  intros Hid. induction c as [|u c IH]; simpl; [done|].
  destruct (has_id id u) eqn:Hu; csimpl.
  - apply has_id_true in Hu. congruence.
  - by rewrite IH.
Qed.

Lemma lookup_id_replace_same id t' c t :
  _id t' = id -> lookup_id id c = Some t -> lookup_id id (replace_id id t' c) = Some t'.
Proof.
  intros Hid. unfold lookup_id. induction c as [|u c IH]; simpl; [done|].
  destruct (has_id id u) eqn:Hu; simpl.
  - intros _. by rewrite (proj2 (has_id_true id t') Hid).
  - rewrite Hu. exact IH.
Qed.

Lemma lookup_id_replace_other id j t' c :
  _id t' = id -> j <> id -> lookup_id j (replace_id id t' c) = lookup_id j c.
Proof.
  intros Hid Hj. unfold lookup_id. induction c as [|u c IH]; simpl; [done|].
  destruct (has_id id u) eqn:Hu; simpl.
  - apply has_id_true in Hu.
    rewrite (proj2 (has_id_false j t')), (proj2 (has_id_false j u)); congruence.
  - by rewrite IH.
Qed.

Lemma replace_id_elem id t' c u :
  u ∈ replace_id id t' c -> u = t' \/ u ∈ c.
Proof.
  induction c as [|v c IH]; simpl; [by intros H; apply elem_of_nil in H|].
  destruct (has_id id v).
  - rewrite !elem_of_cons. tauto.
  - rewrite !elem_of_cons. intros [->|H]; [auto|]. destruct (IH H); auto.
Qed.

Lemma remove_id_elem id c u : u ∈ remove_id id c -> u ∈ c.
Proof.
  induction c as [|v c IH]; simpl; [done|].
  destruct (has_id id v); rewrite ?elem_of_cons; [auto|].
  intros [->|H]; auto.
Qed.

Lemma remove_id_length id c t :
  lookup_id id c = Some t -> S (length (remove_id id c)) = length c.
Proof.
  unfold lookup_id. induction c as [|v c IH]; simpl; [done|].
  destruct (has_id id v); simpl; [done|]. intros H. by rewrite IH.
Qed.

Lemma lookup_id_remove_other id j c :
  j <> id -> lookup_id j (remove_id id c) = lookup_id j c.
Proof.
  intros Hj. unfold lookup_id. induction c as [|v c IH]; simpl; [done|].
  destruct (has_id id v) eqn:Hv; simpl.
  - apply has_id_true in Hv. rewrite (proj2 (has_id_false j v)); congruence.
  - by rewrite IH.
Qed.

Lemma unique_ids_no_match t c : unique_ids (t :: c) -> no_match (_id t) c.
Proof.
  unfold unique_ids. rewrite fmap_cons, NoDup_cons. intros [Hnot _] u Hu Heq.
  apply Hnot. rewrite <- Heq. by apply list_elem_of_fmap_2.
Qed.

Lemma lookup_id_remove_same id c :
  unique_ids c -> lookup_id id (remove_id id c) = None.
Proof.
  induction c as [|v c IH]; simpl; [done|]. intros Hu.
  destruct (has_id id v) eqn:Hv.
  - apply has_id_true in Hv. subst id. by apply lookup_id_None, unique_ids_no_match.
  - unfold lookup_id in *. simpl. rewrite Hv. apply IH.
    unfold unique_ids in *. rewrite fmap_cons, NoDup_cons in Hu. tauto.
Qed.

Lemma remove_id_ids id c : _id <$> remove_id id c `sublist_of` _id <$> c.
Proof.
  induction c as [|v c IH]; simpl; [done|].
  destruct (has_id id v); csimpl.
  - by apply sublist_cons.
  - by apply sublist_skip.
Qed.

Lemma unique_ids_app c t : unique_ids c -> no_match (_id t) c -> unique_ids (c ++ [t]).
Proof.
  unfold unique_ids. intros Hc Hno. rewrite fmap_app, NoDup_app. split; [done|].
  split; [|apply NoDup_singleton].
  intros k Hk Hk'. apply list_elem_of_singleton in Hk'. subst k.
  apply list_elem_of_fmap in Hk as (u & Hid & Hu). by apply (Hno u Hu).
Qed.

(** ** Creating a task *)

Lemma post_task_created now oid b c t c' :
  create now oid b c = Return (t, c') ->
  post_task now oid b c =
    ({| status := 201; success := true; count := None;
        message := Some "Task created successfully"%string;
        data := Some (OneTask t); error := None |}, c').
Proof. intros H. unfold post_task. by rewrite H. Qed.

Lemma post_task_cases now oid b c :
  (exists t, create now oid b c = Return (t, c ++ [t])
             /\ post_task now oid b c =
                  ({| status := 201; success := true; count := None;
                      message := Some "Task created successfully"%string;
                      data := Some (OneTask t); error := None |}, c ++ [t]))
  \/ (exists e, create now oid b c = Throw e
                /\ post_task now oid b c =
                     ({| status := 400; success := false; count := None;
                         message := Some "Error creating task"%string;
                         data := None; error := Some e |}, c)).
Proof.
  destruct (create now oid b c) as [[t c']|e] eqn:Hc.
  - left. exists t. pose proof Hc as Hc'.
    apply create_Return in Hc' as (s & p & _ & _ & _ & _ & _ & ->).
    split; [done|]. by apply post_task_created.
  - right. exists e. split; [done|]. unfold post_task. by rewrite Hc.
Qed.

(** X1.  POST /api/tasks answers 201 exactly when the title has a character
    that is not white space, the priority (if one is given) is literally
    low, medium or high, and the key is unused; every other request gets 400
    and leaves the collection as it was.  The task returned is the one
    appended to the collection: its title is the trimmed title, a
    description that is given is stored trimmed (even when that leaves it
    empty) and only a missing one becomes the placeholder, [completed] is
    the value given or false, and both timestamps are the time of the
    request. *)
Theorem X1_post_task_outcome (now : Z) (oid : ObjectId) (b : Body) (c : collection) :
  (status (post_task now oid b c).1 = 201 <->
     (exists s, body_title b = Some s /\ ~ blank s)
     /\ (forall raw, body_priority b = Some raw -> exists p, raw = priority_name p)
     /\ no_match oid c)
  /\ (status (post_task now oid b c).1 = 201
      \/ (status (post_task now oid b c).1 = 400 /\ (post_task now oid b c).2 = c))
  /\ (forall t, data (post_task now oid b c).1 = Some (OneTask t) ->
        (post_task now oid b c).2 = c ++ [t]
        /\ _id t = oid /\ createdAt t = now /\ updatedAt t = now
        /\ (exists s, body_title b = Some s /\ title t = trim s)
        /\ description t = match body_description b with
                           | Some d => trim d
                           | None => str "default value"
                           end
        /\ completed t = default false (body_completed b)
        /\ match body_priority b with
           | Some raw => raw = priority_name (priority t)
           | None => priority t = medium
           end).
Proof.
  destruct (post_task_cases now oid b c) as [(t & Hc & Hp)|(e & Hc & Hp)];
    rewrite Hp; cbn [fst snd status data].
  - apply create_Return in Hc as (s & p & Hs & Htrim & Hprio & Hno & Ht & _).
    split; [|split; [by left|]].
    + split; [intros _|done]. split; [|split; [|done]].
      * exists s. split; [done|]. intros Hb. by apply Htrim, trim_blank.
      * intros raw Hraw. rewrite Hraw in Hprio. exists p.
        by apply parse_priority_name.
    + intros t' [= <-]. subst t. cbn. repeat split; eauto.
      destruct (body_priority b); [by apply parse_priority_name|done].
  - split; [|split; [by right|done]].
    split; [done|]. intros ((s & Hs & Hb) & Hprio & Hno). exfalso.
    assert (Htrim : trim s <> []) by (intros H; by apply Hb, trim_nil_blank).
    assert (exists p, match body_priority b with
                      | Some raw => parse_priority raw = Some p
                      | None => p = medium
                      end) as [p Hparse].
    { destruct (body_priority b) as [raw|]; [|by eexists].
      destruct (Hprio raw eq_refl) as [p ->]. exists p.
      apply parse_priority_of_name. }
    assert (Hret : exists t c', create now oid b c = Return (t, c')).
    { eexists _, _. apply create_Return. exists s, p. by repeat split. }
    destruct Hret as (t & c' & Hret). congruence.
Qed.

(** X2.  What POST returns can be read back: after a POST answered 201, a
    GET with any id that denotes the key of the new task answers 200 with
    exactly the task the POST returned. *)
Theorem X2_create_then_get (castObjectId : jsstring -> option ObjectId)
  (now : Z) (oid : ObjectId) (b : Body) (c : collection) (id : jsstring) :
  status (post_task now oid b c).1 = 201 ->
  castObjectId id = Some oid ->
  exists t,
    data (post_task now oid b c).1 = Some (OneTask t)
    /\ get_task castObjectId id (post_task now oid b c).2 =
         ({| status := 200; success := true; count := None; message := None;
             data := Some (OneTask t); error := None |}, (post_task now oid b c).2).
Proof.
  destruct (post_task_cases now oid b c) as [(t & Hc & Hp)|(e & Hc & Hp)];
    rewrite Hp; cbn [fst snd status data]; [|done].
  intros _ Hk. exists t. split; [done|].
  apply create_Return in Hc as (s & p & _ & _ & _ & Hno & Ht & _).
  unfold get_task, findById, castId. rewrite Hk. cbn [bind].
  rewrite lookup_id_app, (proj2 (lookup_id_None oid c) Hno).
  rewrite (proj2 (has_id_true oid t)); [done|]. by subst t.
Qed.

Lemma X2_create_then_get_witness :
  exists t,
    data (post_task 100 7%N
            {| body_title := Some (str "Buy milk"); body_description := None;
               body_completed := None; body_priority := None |} []).1
      = Some (OneTask t)
    /\ get_task castObjectId_hex24 (str "000000000000000000000007")
         (post_task 100 7%N
            {| body_title := Some (str "Buy milk"); body_description := None;
               body_completed := None; body_priority := None |} []).2
       = ({| status := 200; success := true; count := None; message := None;
             data := Some (OneTask t); error := None |},
          (post_task 100 7%N
             {| body_title := Some (str "Buy milk"); body_description := None;
                body_completed := None; body_priority := None |} []).2).
Proof.
  apply (X2_create_then_get castObjectId_hex24 100 7%N
           {| body_title := Some (str "Buy milk"); body_description := None;
              body_completed := None; body_priority := None |} []
           (str "000000000000000000000007")); reflexivity.
Defined.

(** ** Updating and deleting a task that exists *)

(** X3.  A PUT on the key of an existing task with a body that passes the
    update validators answers 200 with the task as it is stored afterwards.
    The fields the body gives are set (title and description trimmed), the
    others keep their value; the key and [createdAt] never change and
    [updatedAt] becomes the time of the request.  The task can be read back
    under its key, every other key still leads to the task it led to, and
    the collection keeps its size. *)
Theorem X3_put_task_updates (castObjectId : jsstring -> option ObjectId)
  (now : Z) (id : jsstring) (b : Body) (c : collection) (k : ObjectId) (t : Task) :
  castObjectId id = Some k -> lookup_id k c = Some t -> update_valid b ->
  exists t',
    put_task castObjectId now id b c =
      ({| status := 200; success := true; count := None;
          message := Some "Task updated successfully"%string;
          data := Some (OneTask t'); error := None |}, replace_id k t' c)
    /\ _id t' = k /\ createdAt t' = createdAt t /\ updatedAt t' = now
    /\ title t' = match body_title b with Some s => trim s | None => title t end
    /\ description t' = match body_description b with
                        | Some d => trim d
                        | None => description t
                        end
    /\ completed t' = default (completed t) (body_completed b)
    /\ match body_priority b with
       | Some raw => raw = priority_name (priority t')
       | None => priority t' = priority t
       end
    /\ lookup_id k (replace_id k t' c) = Some t'
    /\ (forall j, j <> k -> lookup_id j (replace_id k t' c) = lookup_id j c)
    /\ length (replace_id k t' c) = length c.
Proof.
  intros Hk Hl Hv.
  destruct (lookup_id_Some _ _ _ Hl) as [_ Hid].
  assert (exists p, match body_priority b with
                    | Some raw => parse_priority raw = Some p
                    | None => p = priority t
                    end) as [p Hp].
  { destruct (body_priority b) as [raw|] eqn:Hraw; [|by eexists].
    apply update_valid_iff in Hv as [_ Hv]. by apply Hv. }
  set (t' := {| _id := _id t;
                title := match body_title b with Some s => trim s | None => title t end;
                description := match body_description b with
                               | Some d => trim d
                               | None => description t
                               end;
                completed := default (completed t) (body_completed b);
                priority := p; createdAt := createdAt t; updatedAt := now |}).
  assert (Hfind : findByIdAndUpdate castObjectId now id b c
                  = Return (Some t', replace_id k t' c)).
  { apply findByIdAndUpdate_Some. exists k, t, p. by repeat split. }
  exists t'. split; [unfold put_task; by rewrite Hfind|].
  repeat split; try done.
  - destruct (body_priority b); [by apply parse_priority_name|done].
  - by apply (lookup_id_replace_same _ _ _ t).
  - intros j Hj. by apply lookup_id_replace_other.
  - apply replace_id_length.
Qed.

Lemma X3_put_task_updates_witness :
  let t := mkTask 7%N (str "Buy milk") (str "default value") false medium 100 100 in
  exists t',
    put_task castObjectId_hex24 200 (str "000000000000000000000007")
      {| body_title := None; body_description := None;
         body_completed := Some true; body_priority := None |} [t]
    = ({| status := 200; success := true; count := None;
          message := Some "Task updated successfully"%string;
          data := Some (OneTask t'); error := None |}, replace_id 7%N t' [t])
    /\ title t' = title t /\ completed t' = true /\ updatedAt t' = 200.
Proof.
  intros t.
  destruct (X3_put_task_updates castObjectId_hex24 200
              (str "000000000000000000000007")
              {| body_title := None; body_description := None;
                 body_completed := Some true; body_priority := None |} [t] 7%N t)
    as (t' & Hput & _ & _ & Hup & Htitle & _ & Hdone & _); try reflexivity.
  exists t'. auto.
Defined.

(** X4.  A DELETE on the key of an existing task answers 200 with that
    task and removes one task from the collection; every other key still
    leads to the task it led to.  In a collection where keys are unique the
    key is gone afterwards: a GET and a second DELETE on it both answer
    404. *)
Theorem X4_delete_task_removes (castObjectId : jsstring -> option ObjectId)
  (id : jsstring) (c : collection) (k : ObjectId) (t : Task) :
  castObjectId id = Some k -> lookup_id k c = Some t -> unique_ids c ->
  delete_task castObjectId id c =
    ({| status := 200; success := true; count := None;
        message := Some "Task deleted successfully"%string;
        data := Some (OneTask t); error := None |}, remove_id k c)
  /\ S (length (remove_id k c)) = length c
  /\ (forall j, j <> k -> lookup_id j (remove_id k c) = lookup_id j c)
  /\ status (get_task castObjectId id (remove_id k c)).1 = 404
  /\ status (delete_task castObjectId id (remove_id k c)).1 = 404
  /\ (delete_task castObjectId id (remove_id k c)).2 = remove_id k c.
Proof.
  intros Hk Hl Hu.
  pose proof (lookup_id_remove_same k c Hu) as Hgone.
  unfold delete_task, get_task, findByIdAndDelete, findById, castId.
  rewrite Hk. cbn [bind]. rewrite Hl, Hgone.
  repeat split.
  - by apply (remove_id_length k c t).
  - intros j Hj. by apply lookup_id_remove_other.
Qed.

Lemma X4_delete_task_removes_witness :
  let t := mkTask 7%N (str "Buy milk") (str "default value") false medium 100 100 in
  let u := mkTask 8%N (str "Buy bread") (str "default value") false low 150 150 in
  delete_task castObjectId_hex24 (str "000000000000000000000007") [t; u] =
    ({| status := 200; success := true; count := None;
        message := Some "Task deleted successfully"%string;
        data := Some (OneTask t); error := None |}, remove_id 7%N [t; u])
  /\ status (get_task castObjectId_hex24 (str "000000000000000000000007")
               (remove_id 7%N [t; u])).1 = 404.
Proof.
  intros t u.
  destruct (X4_delete_task_removes castObjectId_hex24
              (str "000000000000000000000007") [t; u] 7%N t)
    as (Hdel & _ & _ & Hget & _); try reflexivity.
  - unfold unique_ids. cbn. apply NoDup_cons. split; [|apply NoDup_singleton].
    rewrite list_elem_of_singleton. discriminate.
  - auto.
Defined.

(** X5.  An id that is not a well-formed key makes PUT and DELETE answer
    400 with the cast error, whatever the body, and the collection is left
    as it was. *)
Theorem X5_malformed_id_rejected (castObjectId : jsstring -> option ObjectId)
  (now : Z) (id : jsstring) (b : Body) (c : collection) :
  castObjectId id = None ->
  put_task castObjectId now id b c =
    ({| status := 400; success := false; count := None;
        message := Some "Error updating task"%string; data := None;
        error := Some (CastError "_id" id) |}, c)
  /\ delete_task castObjectId id c =
       ({| status := 400; success := false; count := None;
           message := Some "Error deleting task"%string; data := None;
           error := Some (CastError "_id" id) |}, c).
Proof.
  intros Hk.
  unfold put_task, delete_task, findByIdAndUpdate, findByIdAndDelete, castId.
  by rewrite Hk.
Qed.

Lemma X5_malformed_id_rejected_witness :
  status (put_task castObjectId_hex24 5 (str "milk")
            {| body_title := Some (str "x"); body_description := None;
               body_completed := None; body_priority := None |} []).1 = 400
  /\ status (delete_task castObjectId_hex24 (str "milk") []).1 = 400.
Proof.
  destruct (X5_malformed_id_rejected castObjectId_hex24 5 (str "milk")
              {| body_title := Some (str "x"); body_description := None;
                 body_completed := None; body_priority := None |} [] eq_refl)
    as [Hput Hdel].
  rewrite Hput, Hdel. split; reflexivity.
Defined.

(** ** What no request does *)

(** X6.  The two GET handlers never change the collection, and a POST, PUT
    or DELETE that answers with [success: false] leaves it as it was.  In
    every answer [success] is true exactly for the status codes 200 and 201,
    and an answer with [success: false] carries a message. *)
Theorem X6_failures_never_write (castObjectId : jsstring -> option ObjectId)
  (now : Z) (oid : ObjectId) (id : jsstring) (b : Body) (c : collection) :
  (get_tasks c).2 = c
  /\ (get_task castObjectId id c).2 = c
  /\ Forall (fun rc : Response * collection =>
               (success rc.1 = false -> rc.2 = c)
               /\ (success rc.1 = true <-> status rc.1 = 200 \/ status rc.1 = 201)
               /\ (success rc.1 = false -> message rc.1 <> None))
       [get_tasks c; get_task castObjectId id c; post_task now oid b c;
        put_task castObjectId now id b c; delete_task castObjectId id c].
Proof.
  assert (Hget : (get_task castObjectId id c).2 = c).
  { unfold get_task. by destruct (findById castObjectId id c) as [[?|]|]. }
  split; [done|]. split; [done|].
  repeat apply Forall_cons_2; [| | | | |apply Forall_nil_2].
  - cbn. repeat split; auto; done.
  - rewrite Hget. unfold get_task.
    destruct (findById castObjectId id c) as [[?|]|]; cbn;
      repeat split; auto; try done; intros [|]; done.
  - destruct (post_task_cases now oid b c) as [(t & _ & ->)|(e & _ & ->)]; cbn;
      repeat split; auto; try done; intros [|]; done.
  - unfold put_task.
    destruct (findByIdAndUpdate castObjectId now id b c) as [[[t'|] c']|e] eqn:Hf;
      cbn; repeat split; auto; try done; try (intros [|]; done).
    intros _. by apply findByIdAndUpdate_None in Hf.
  - unfold delete_task.
    destruct (findByIdAndDelete castObjectId id c) as [[[t'|] c']|e] eqn:Hf;
      cbn; repeat split; auto; try done; try (intros [|]; done).
    intros _. apply findByIdAndDelete_Return in Hf as (k & _ & Hr & ->).
    by rewrite <- Hr.
Qed.

(** ** Invariants of the collection *)

Lemma stored_ok_created now oid b c t c' :
  create now oid b c = Return (t, c') -> stored_ok t.
Proof.
  intros H. apply create_Return in H as (s & p & _ & Hs & _ & _ & -> & _).
  unfold stored_ok. cbn. repeat split; [done|apply trim_idempotent|].
  destruct (body_description b); [apply trim_idempotent|reflexivity].
Qed.

Lemma stored_ok_updated castObjectId now id b c t' c' :
  Forall stored_ok c ->
  findByIdAndUpdate castObjectId now id b c = Return (Some t', c') -> stored_ok t'.
Proof.
  intros Hc H.
  apply findByIdAndUpdate_Some in H as (k & t & p & _ & Hl & Hv & _ & -> & _).
  apply lookup_id_Some in Hl as [Hin _].
  rewrite Forall_forall in Hc. destruct (Hc t Hin) as (H1 & H2 & H3).
  apply update_valid_iff in Hv as [Hv _].
  unfold stored_ok. cbn. repeat split.
  - destruct (body_title b) as [s|]; [by apply Hv|done].
  - destruct (body_title b); [apply trim_idempotent|done].
  - destruct (body_description b); [apply trim_idempotent|done].
Qed.

(** X7.  The schema's promise about stored tasks is kept by every handler:
    if every task of the collection has a non-empty title without white
    space at either end and a description without white space at either
    end, the same holds after any POST, PUT or DELETE, whatever the
    request. *)
Theorem X7_stored_tasks_stay_trimmed (castObjectId : jsstring -> option ObjectId)
  (now : Z) (oid : ObjectId) (id : jsstring) (b : Body) (c : collection) :
  Forall stored_ok c ->
  Forall stored_ok (post_task now oid b c).2
  /\ Forall stored_ok (put_task castObjectId now id b c).2
  /\ Forall stored_ok (delete_task castObjectId id c).2.
Proof.
  intros Hc. split; [|split].
  - destruct (post_task_cases now oid b c) as [(t & Hcr & ->)|(e & _ & ->)];
      cbn [snd]; [|done].
    apply Forall_app. split; [done|].
    apply Forall_singleton. by eapply stored_ok_created.
  - unfold put_task.
    destruct (findByIdAndUpdate castObjectId now id b c) as [[[t'|] c']|e] eqn:Hf;
      cbn [snd]; [| |done].
    + pose proof (stored_ok_updated _ _ _ _ _ _ _ Hc Hf) as Ht'.
      apply findByIdAndUpdate_Some in Hf as (k & t & p & _ & _ & _ & _ & _ & ->).
      apply Forall_forall. intros u Hu.
      destruct (replace_id_elem _ _ _ _ Hu) as [->|Hin]; [done|].
      rewrite Forall_forall in Hc. by apply Hc.
    + by rewrite (findByIdAndUpdate_None _ _ _ _ _ _ Hf).
  - unfold delete_task.
    destruct (findByIdAndDelete castObjectId id c) as [[[t'|] c']|e] eqn:Hf;
      cbn [snd]; [| |done];
      apply findByIdAndDelete_Return in Hf as (k & _ & Hr & ->); rewrite <- Hr;
      [|done].
    apply Forall_forall. intros u Hu. apply remove_id_elem in Hu.
    rewrite Forall_forall in Hc. by apply Hc.
Qed.

Lemma X7_stored_tasks_stay_trimmed_witness :
  let t := mkTask 7%N (str "Buy milk") (str "default value") false medium 100 100 in
  Forall stored_ok
    (post_task 200 8%N
       {| body_title := Some (str "  Buy bread "); body_description := Some (str " ");
          body_completed := None; body_priority := None |} [t]).2.
Proof.
  intros t.
  apply (X7_stored_tasks_stay_trimmed castObjectId_hex24 200 8%N [] _ [t]).
  apply Forall_singleton. unfold stored_ok. cbn. by repeat split.
Defined.

(** X8.  Keys stay unique: if no two tasks of the collection share a key,
    the same holds after any POST, PUT or DELETE; a POST with a key that is
    taken is refused. *)
Theorem X8_keys_stay_unique (castObjectId : jsstring -> option ObjectId)
  (now : Z) (oid : ObjectId) (id : jsstring) (b : Body) (c : collection) :
  unique_ids c ->
  unique_ids (post_task now oid b c).2
  /\ unique_ids (put_task castObjectId now id b c).2
  /\ unique_ids (delete_task castObjectId id c).2
  /\ (~ no_match oid c -> status (post_task now oid b c).1 = 400).
Proof.
  intros Hc. split; [|split; [|split]].
  - destruct (post_task_cases now oid b c) as [(t & Hcr & ->)|(e & _ & ->)];
      cbn [snd]; [|done].
    apply create_Return in Hcr as (s & p & _ & _ & _ & Hno & Ht & _).
    apply unique_ids_app; [done|]. by subst t.
  - unfold put_task.
    destruct (findByIdAndUpdate castObjectId now id b c) as [[[t'|] c']|e] eqn:Hf;
      cbn [snd]; [| |done].
    + apply findByIdAndUpdate_Some in Hf as (k & t & p & _ & Hl & _ & _ & Ht' & ->).
      unfold unique_ids. rewrite replace_id_ids; [done|].
      apply lookup_id_Some in Hl as [_ Hid]. by subst t'.
    + by rewrite (findByIdAndUpdate_None _ _ _ _ _ _ Hf).
  - unfold delete_task.
    destruct (findByIdAndDelete castObjectId id c) as [[[t'|] c']|e] eqn:Hf;
      cbn [snd]; [| |done];
      apply findByIdAndDelete_Return in Hf as (k & _ & Hr & ->); rewrite <- Hr;
      [|done].
    unfold unique_ids in *. eapply sublist_NoDup; [done|apply remove_id_ids].
  - intros Hno.
    destruct (post_task_cases now oid b c) as [(t & Hcr & ->)|(e & _ & ->)];
      [|done].
    apply create_Return in Hcr as (s & p & _ & _ & _ & Hfree & _). by destruct Hno.
Qed.

Lemma X8_keys_stay_unique_witness :
  let t := mkTask 7%N (str "Buy milk") (str "default value") false medium 100 100 in
  unique_ids
    (post_task 200 8%N
       {| body_title := Some (str "Buy bread"); body_description := None;
          body_completed := None; body_priority := None |} [t]).2.
Proof.
  intros t.
  apply (X8_keys_stay_unique castObjectId_hex24 200 8%N [] _ [t]).
  unfold unique_ids. cbn. apply NoDup_singleton.
Defined.

(** ** Sorting by a numeric key *)

Section KeySort.
Context {A : Type} (cmp : A -> A -> Z) (key : A -> Z).
Hypothesis cmp_key : forall x y, cmp x y <= 0 <-> key x <= key y.

Lemma sort_insert_sorted x l :
  StronglySorted (ascending key) l ->
  StronglySorted (ascending key) (sort_insert cmp x l).
Proof.
  induction 1 as [|y l Hl IH Hy]; simpl; [repeat constructor|].
  destruct (Z.leb_spec (cmp x y) 0) as [Hle|Hgt].
  - apply cmp_key in Hle. constructor; [by constructor|].
    constructor; [done|]. eapply Forall_impl; [exact Hy|].
    unfold ascending. simpl. lia.
  - assert (key y < key x) by (destruct (Z.le_gt_cases (key x) (key y));
      [apply cmp_key in H; lia | lia]).
    constructor; [done|].
    rewrite (sort_insert_Permutation cmp x l). constructor; [|done].
    unfold ascending. lia.
Qed.

Lemma Array_sort_sorted l : StronglySorted (ascending key) (Array_sort cmp l).
Proof.
  induction l as [|x l IH]; simpl; [constructor|]. by apply sort_insert_sorted.
Qed.

Lemma with_key_cons k x l :
  with_key key k (x :: l) =
    if bool_decide (key x = k) then x :: with_key key k l else with_key key k l.
Proof. reflexivity. Qed.

Lemma sort_insert_with_key k x l :
  with_key key k (sort_insert cmp x l) = with_key key k (x :: l).
Proof.
  induction l as [|y l IH]; simpl sort_insert; [done|].
  destruct (Z.leb_spec (cmp x y) 0) as [Hle|Hgt]; [done|].
  rewrite with_key_cons, IH, !with_key_cons.
  destruct (bool_decide (key y = k)) eqn:Hy, (bool_decide (key x = k)) eqn:Hx;
    try done.
  apply bool_decide_eq_true in Hy, Hx.
  assert (cmp x y <= 0) by (apply cmp_key; lia). lia.
Qed.

Lemma Array_sort_with_key k l :
  with_key key k (Array_sort cmp l) = with_key key k l.
Proof.
  induction l as [|x l IH]; [done|].
  simpl Array_sort. fold (Array_sort cmp l).
  by rewrite sort_insert_with_key, !with_key_cons, IH.
Qed.

Lemma Array_sort_of_sorted l :
  StronglySorted (ascending key) l -> Array_sort cmp l = l.
Proof.
  induction 1 as [|x l Hl IH Hx]; [done|].
  simpl Array_sort. fold (Array_sort cmp l). rewrite IH.
  apply sort_insert_stop. eapply Forall_impl; [exact Hx|].
  intros y Hy. by apply cmp_key.
Qed.

End KeySort.

(** A list in ascending order of a key is determined by its groups of equal
    key. *)
Lemma sorted_groups_unique {A} (key : A -> Z) (l1 l2 : list A) :
  StronglySorted (ascending key) l1 -> StronglySorted (ascending key) l2 ->
  (forall k, with_key key k l1 = with_key key k l2) -> l1 = l2.
Proof.
  intros H1. revert l2. induction H1 as [|x l1 Hs1 IH Hx]; intros l2 H2 Hg.
  - destruct l2 as [|y l2]; [done|].
    specialize (Hg (key y)). rewrite with_key_cons in Hg.
    by rewrite bool_decide_eq_true_2 in Hg.
  - destruct H2 as [|y l2 Hs2 Hy].
    { specialize (Hg (key x)). rewrite with_key_cons in Hg.
      by rewrite bool_decide_eq_true_2 in Hg. }
    assert (Hmem : forall (l l' : list A) a, with_key key (key a) l = with_key key (key a) l'
                     -> a ∈ l -> exists b, b ∈ l' /\ key b = key a).
    { intros l l' a Heq Ha.
      assert (a ∈ with_key key (key a) l) as Hin.
      { apply list_elem_of_In, filter_In. split; [by apply list_elem_of_In|].
        by apply bool_decide_eq_true. }
      rewrite Heq in Hin. apply list_elem_of_In, filter_In in Hin as [Hb _].
      exists a. split; [by apply list_elem_of_In|done]. }
    assert (Hxy : key x = key y).
    { rewrite Forall_forall in Hx, Hy. unfold ascending in Hx, Hy.
      destruct (Hmem (x :: l1) (y :: l2) x (Hg (key x))) as (b & Hb & Hkb); [by left|].
      destruct (Hmem (y :: l2) (x :: l1) y (eq_sym (Hg (key y)))) as (a & Ha & Hka);
        [by left|].
      apply elem_of_cons in Hb as [->|Hb]; [done|].
      apply elem_of_cons in Ha as [->|Ha]; [done|].
      specialize (Hx a Ha). specialize (Hy b Hb). lia. }
    assert (x = y) as <-.
    { specialize (Hg (key x)). rewrite !with_key_cons in Hg.
      rewrite bool_decide_eq_true_2 in Hg by done.
      rewrite bool_decide_eq_true_2 in Hg by done. congruence. }
    f_equal. apply IH; [done|]. intros k. specialize (Hg k).
    rewrite !with_key_cons in Hg. destruct (bool_decide (key x = k)); congruence.
Qed.

Lemma with_key_filter_comm {A} (key : A -> Z) k (f : A -> bool) l :
  with_key key k (List.filter f l) = List.filter f (with_key key k l).
Proof.
  unfold with_key. induction l as [|x l IH]; simpl; [done|].
  destruct (f x) eqn:Hf, (bool_decide (key x = k)) eqn:Hk; simpl;
    rewrite ?Hf, ?Hk, ?IH; done.
Qed.

Lemma filter_sorted {A} (R : relation A) (f : A -> bool) l :
  StronglySorted R l -> StronglySorted R (List.filter f l).
Proof.
  induction 1 as [|x l Hl IH Hx]; simpl; [constructor|].
  destruct (f x); [|done]. constructor; [done|].
  apply Forall_forall. intros y Hy.
  apply list_elem_of_In, filter_In in Hy as [Hy _].
  rewrite Forall_forall in Hx. by apply Hx, list_elem_of_In.
Qed.

Lemma comparator_key toLowerCase localeCompare sortBy x y :
  sortBy <> TaskList.alphabetical ->
  TaskList.comparator toLowerCase localeCompare sortBy x y <= 0
  <-> sort_key sortBy x <= sort_key sortBy y.
Proof.
  destruct sortBy; simpl; intros H; try done; lia.
Qed.

Lemma StronglySorted_impl {A} (R1 R2 : relation A) l :
  (forall x y, R1 x y -> R2 x y) -> StronglySorted R1 l -> StronglySorted R2 l.
Proof.
  intros HR. induction 1 as [|x l _ IH Hx]; constructor; [done|].
  eapply Forall_impl; [exact Hx|]. auto.
Qed.

Lemma newer_first_ascending l :
  StronglySorted newer_first l <-> StronglySorted (ascending (sort_key TaskList.newest)) l.
Proof.
  split; apply StronglySorted_impl; unfold newer_first, ascending; simpl; lia.
Qed.

(** ** The list view under the numeric sort orders *)

Section ListView.
Variable toLowerCase : jsstring -> jsstring.
Variable localeCompare : jsstring -> jsstring -> Z.

#[local] Abbreviation shown := (TaskList.filteredAndSortedTasks toLowerCase localeCompare).

Lemma shown_sorted filter sortBy tasks :
  sortBy <> TaskList.alphabetical ->
  StronglySorted (ascending (sort_key sortBy)) (shown filter sortBy tasks).
Proof.
  intros H. apply Array_sort_sorted. intros x y. by apply comparator_key.
Qed.

Lemma shown_with_key filter sortBy tasks k :
  sortBy <> TaskList.alphabetical ->
  with_key (sort_key sortBy) k (shown filter sortBy tasks)
  = with_key (sort_key sortBy) k (TaskList.filtered filter tasks).
Proof.
  intros H. apply Array_sort_with_key. intros x y. by apply comparator_key.
Qed.

(** X9.  Under "newest", "oldest" and "priority" the list shown is a
    rearrangement of the filtered tasks in ascending order of the sort key
    (newest: later [createdAt] first; oldest: earlier [createdAt] first),
    and tasks with the same key keep the order they had in the input. *)
Theorem X9_numeric_sorts (filter : TaskList.filter_option)
  (sortBy : TaskList.sort_option) (tasks : list Task) :
  sortBy <> TaskList.alphabetical ->
  shown filter sortBy tasks ≡ₚ TaskList.filtered filter tasks
  /\ StronglySorted (ascending (sort_key sortBy)) (shown filter sortBy tasks)
  /\ (forall k, with_key (sort_key sortBy) k (shown filter sortBy tasks)
                = with_key (sort_key sortBy) k (TaskList.filtered filter tasks))
  /\ StronglySorted newer_first (shown filter TaskList.newest tasks)
  /\ StronglySorted (ascending createdAt) (shown filter TaskList.oldest tasks).
Proof.
  intros H. split; [apply Array_sort_Permutation|].
  split; [by apply shown_sorted|].
  split; [intros k; by apply shown_with_key|].
  split.
  - apply newer_first_ascending. by apply shown_sorted.
  - by apply (shown_sorted filter TaskList.oldest).
Qed.

(** X10.  Filtering and sorting commute under the numeric sort orders: the
    list shown under a filter is the list shown under "all", with the tasks
    the filter rejects left out and nothing else moved. *)
Theorem X10_filter_of_sorted (filter : TaskList.filter_option)
  (sortBy : TaskList.sort_option) (tasks : list Task) :
  sortBy <> TaskList.alphabetical ->
  shown filter sortBy tasks
  = TaskList.filtered filter (shown TaskList.show_all sortBy tasks).
Proof.
  intros H. apply (sorted_groups_unique (sort_key sortBy)).
  - by apply shown_sorted.
  - apply filter_sorted. by apply shown_sorted.
  - intros k. rewrite shown_with_key by done.
    unfold TaskList.filtered at 2.
    rewrite with_key_filter_comm, shown_with_key by done.
    rewrite filtered_all. unfold TaskList.filtered. by rewrite with_key_filter_comm.
Qed.

(** X11.  With the default sort order the view shows the list of
    GET /api/tasks as the server ordered it: under "newest" the answer of the
    server is shown unchanged under the filter "all", and with the rejected
    tasks left out under the other filters. *)
Theorem X11_server_order_shown (filter : TaskList.filter_option) (c : collection) :
  data (get_tasks c).1 = Some (Tasks (listing c))
  /\ shown TaskList.show_all TaskList.newest (listing c) = listing c
  /\ shown filter TaskList.newest (listing c) = TaskList.filtered filter (listing c).
Proof.
  split; [reflexivity|].
  assert (Hs : forall f, StronglySorted (ascending (sort_key TaskList.newest))
                           (TaskList.filtered f (listing c))).
  { intros f. apply filter_sorted, newer_first_ascending.
    apply StronglySorted_merge_sort; apply _. }
  assert (Hid : forall f, shown f TaskList.newest (listing c)
                          = TaskList.filtered f (listing c)).
  { intros f. unfold TaskList.filteredAndSortedTasks.
    apply (Array_sort_of_sorted _ (sort_key TaskList.newest)); [|done].
    intros x y. by apply comparator_key. }
  split; [|apply Hid]. by rewrite Hid, filtered_all.
Qed.

(** X12.  Whatever the sort order and the locale, the view shows exactly
    the tasks that pass the filter, each as often as it is in the list: the
    number shown is the number of tasks passing the filter and never exceeds
    the number of tasks, the numbers shown under "active" and "completed" add
    up to the number of tasks, and the view is empty exactly when no task
    passes the filter. *)
Theorem X12_shown_counts (filter : TaskList.filter_option)
  (sortBy : TaskList.sort_option) (tasks : list Task) :
  shown filter sortBy tasks ≡ₚ TaskList.filtered filter tasks
  /\ (forall t, t ∈ shown filter sortBy tasks
                <-> t ∈ tasks /\ TaskList.keeps filter t = true)
  /\ (length (shown filter sortBy tasks) <= length tasks)%nat
  /\ (length (shown TaskList.show_active sortBy tasks)
      + length (shown TaskList.show_completed sortBy tasks) = length tasks)%nat
  /\ (shown filter sortBy tasks = []
      <-> forall t, t ∈ tasks -> TaskList.keeps filter t = false).
Proof.
  pose proof (fun f => Array_sort_Permutation
    (TaskList.comparator toLowerCase localeCompare sortBy) (TaskList.filtered f tasks))
    as Hperm.
  split; [apply Hperm|]. split; [|split; [|split]].
  - intros t. unfold TaskList.filteredAndSortedTasks. rewrite (Hperm filter).
    apply filtered_elem.
  - unfold TaskList.filteredAndSortedTasks. rewrite (Hperm filter).
    apply filter_length_le.
  - unfold TaskList.filteredAndSortedTasks.
    rewrite (Hperm TaskList.show_active), (Hperm TaskList.show_completed).
    rewrite <- length_app.
    by rewrite (Interleaved_Permutation _ _ _ (filtered_interleaved tasks)).
  - unfold TaskList.filteredAndSortedTasks. split.
    + intros Hnil t Ht.
      destruct (TaskList.keeps filter t) eqn:Hk; [|done].
      assert (t ∈ TaskList.filtered filter tasks) as Hin by (by apply filtered_elem).
      rewrite <- (Hperm filter), Hnil in Hin. by apply elem_of_nil in Hin.
    + intros Hnone.
      assert (TaskList.filtered filter tasks = []) as ->; [|done].
      destruct (TaskList.filtered filter tasks) as [|t l] eqn:Hf; [done|].
      assert (t ∈ TaskList.filtered filter tasks) as Hin by (rewrite Hf; by left).
      apply filtered_elem in Hin as [Hin Hk]. rewrite (Hnone t Hin) in Hk. done.
Qed.

End ListView.

Lemma X9_numeric_sorts_witness :
  let t1 := mkTask 1%N (str "a") [] false low 10 10 in
  let t2 := mkTask 2%N (str "b") [] true high 30 30 in
  let t3 := mkTask 3%N (str "c") [] false medium 20 25 in
  StronglySorted newer_first
    (TaskList.filteredAndSortedTasks (fun s => s) (fun _ _ => 0)
       TaskList.show_all TaskList.newest [t1; t2; t3])
  /\ StronglySorted (ascending createdAt)
    (TaskList.filteredAndSortedTasks (fun s => s) (fun _ _ => 0)
       TaskList.show_all TaskList.oldest [t1; t2; t3]).
Proof.
  intros t1 t2 t3.
  destruct (X9_numeric_sorts (fun s => s) (fun _ _ => 0) TaskList.show_all
              TaskList.newest [t1; t2; t3]) as (_ & _ & _ & Hn & Ho); [done|].
  split; [exact Hn | exact Ho].
Defined.

Lemma X10_filter_of_sorted_witness :
  let t1 := mkTask 1%N (str "a") [] false low 10 10 in
  let t2 := mkTask 2%N (str "b") [] true high 30 30 in
  let t3 := mkTask 3%N (str "c") [] false medium 20 25 in
  TaskList.filteredAndSortedTasks (fun s => s) (fun _ _ => 0)
    TaskList.show_active TaskList.by_priority [t1; t2; t3]
  = TaskList.filtered TaskList.show_active
      (TaskList.filteredAndSortedTasks (fun s => s) (fun _ _ => 0)
         TaskList.show_all TaskList.by_priority [t1; t2; t3]).
Proof.
  intros t1 t2 t3.
  apply (X10_filter_of_sorted (fun s => s) (fun _ _ => 0)). done.
Defined.

(** ** The counts of the statistics *)

Lemma countByPriority_acc (acc : TaskStats.Counts) (l : list Task) (p : Priority) :
  TaskStats.count_of
    (fold_left (fun a task => TaskStats.increment a (priority task)) l acc) p
  = (TaskStats.count_of acc p + length (with_priority p l))%nat.
Proof.
  revert acc. induction l as [|t l IH]; intros acc; simpl; [lia|].
  rewrite IH. unfold with_priority. simpl.
  destruct (priority t), p; simpl; lia.
Qed.

Lemma countByPriority_count l p :
  TaskStats.count_of (TaskStats.countByPriority l) p = length (with_priority p l).
Proof. unfold TaskStats.countByPriority. rewrite countByPriority_acc. by destruct p. Qed.

Lemma with_priority_total l :
  (length (with_priority high l) + length (with_priority medium l)
   + length (with_priority low l) = length l)%nat.
Proof.
  induction l as [|t l IH]; [done|]. unfold with_priority in *. simpl.
  destruct (priority t); simpl; lia.
Qed.

Lemma with_priority_filter_comm p (f : Task -> bool) l :
  with_priority p (List.filter f l) = List.filter f (with_priority p l).
Proof.
  unfold with_priority. induction l as [|x l IH]; simpl; [done|].
  destruct (f x) eqn:Hf, (bool_decide (priority x = p)) eqn:Hp; simpl;
    rewrite ?Hf, ?Hp, ?IH; done.
Qed.

(** X13.  The statistics count what the list holds: for each priority the
    total is the number of tasks of that priority and the completed count
    is the number of completed tasks of that priority, never more than the
    total; the three totals add up to the number of tasks and the three
    completed counts to the number of completed tasks; the active count is
    the number of tasks the "active" filter of the list view shows, and the
    completed count the number the "completed" filter shows. *)
Theorem X13_statistics_counts (tasks : list Task) :
  (forall p, TaskStats.count_of (TaskStats.tasksByPriority tasks) p
             = length (with_priority p tasks))
  /\ (forall p, TaskStats.count_of (TaskStats.completedByPriority tasks) p
                = length (List.filter completed (with_priority p tasks)))
  /\ (forall p, TaskStats.count_of (TaskStats.completedByPriority tasks) p
                <= TaskStats.count_of (TaskStats.tasksByPriority tasks) p)%nat
  /\ (TaskStats.count_high (TaskStats.tasksByPriority tasks)
      + TaskStats.count_medium (TaskStats.tasksByPriority tasks)
      + TaskStats.count_low (TaskStats.tasksByPriority tasks)
      = TaskStats.totalTasks tasks)%nat
  /\ (TaskStats.count_high (TaskStats.completedByPriority tasks)
      + TaskStats.count_medium (TaskStats.completedByPriority tasks)
      + TaskStats.count_low (TaskStats.completedByPriority tasks)
      = TaskStats.completedTasks tasks)%nat
  /\ (TaskStats.activeTasks tasks + TaskStats.completedTasks tasks
      = TaskStats.totalTasks tasks)%nat
  /\ TaskStats.activeTasks tasks
     = length (TaskList.filtered TaskList.show_active tasks)
  /\ TaskStats.completedTasks tasks
     = length (TaskList.filtered TaskList.show_completed tasks).
Proof.
  unfold TaskStats.tasksByPriority, TaskStats.completedByPriority.
  assert (Hc : forall p, TaskStats.count_of
                 (TaskStats.countByPriority (List.filter completed tasks)) p
               = length (List.filter completed (with_priority p tasks))).
  { intros p. by rewrite countByPriority_count, with_priority_filter_comm. }
  assert (Hsplit : (length (TaskList.filtered TaskList.show_active tasks)
                    + length (TaskList.filtered TaskList.show_completed tasks)
                    = length tasks)%nat).
  { rewrite <- length_app.
    by rewrite (Interleaved_Permutation _ _ _ (filtered_interleaved tasks)). }
  assert (Hdone : TaskStats.completedTasks tasks
                  = length (TaskList.filtered TaskList.show_completed tasks))
    by reflexivity.
  split; [intros p; apply countByPriority_count|].
  split; [exact Hc|].
  split; [intros p; rewrite Hc, countByPriority_count; apply List.filter_length_le|].
  split.
  { pose proof (countByPriority_count tasks) as H.
    pose proof (H high) as Hh. pose proof (H medium) as Hm. pose proof (H low) as Hl.
    simpl in Hh, Hm, Hl. rewrite Hh, Hm, Hl. apply with_priority_total. }
  split.
  { pose proof (countByPriority_count (List.filter completed tasks)) as H.
    pose proof (H high) as Hh. pose proof (H medium) as Hm. pose proof (H low) as Hl.
    simpl in Hh, Hm, Hl. rewrite Hh, Hm, Hl. apply with_priority_total. }
  unfold TaskStats.activeTasks. rewrite Hdone. unfold TaskStats.totalTasks.
  split; [lia|]. split; [lia|done].
Qed.

(** ** The form and the server *)

(** X14.  [validateForm] accepts a form exactly when its trimmed title has
    between 3 and 100 characters, both bounds included, and its description,
    untrimmed, has at most 250; a form it accepts does not have its submit
    button disabled unless a submission is under way. *)
Theorem X14_validateForm_bounds (f : TaskForm.FormData) :
  (TaskForm.validateForm f = true <->
     (3 <= length (trim (TaskForm.title f)) <= 100)%nat
     /\ (length (TaskForm.description f) <= 250)%nat)
  /\ (forall s, TaskForm.formData s = f -> TaskForm.validateForm f = true ->
        TaskForm.submitDisabled s = TaskForm.isSubmitting s).
Proof.
  assert (Hiff : TaskForm.validateForm f = true <->
     (3 <= length (trim (TaskForm.title f)) <= 100)%nat
     /\ (length (TaskForm.description f) <= 250)%nat).
  { unfold TaskForm.validateForm, TaskForm.newErrors. simpl.
    destruct (bool_decide (trim (TaskForm.title f) = [])) eqn:Hb.
    { apply bool_decide_eq_true in Hb. rewrite Hb. simpl. split; [done|lia]. }
    destruct (Nat.ltb_spec (length (trim (TaskForm.title f))) 3);
      [split; [done|lia]|].
    destruct (Nat.ltb_spec 100 (length (trim (TaskForm.title f))));
      [split; [done|lia]|].
    destruct (Nat.ltb_spec 250 (length (TaskForm.description f)));
      [split; [done|lia]|].
    split; [lia|done]. }
  split; [exact Hiff|].
  intros s <- Hv. unfold TaskForm.submitDisabled.
  rewrite bool_decide_eq_false_2; [by rewrite orb_false_r|].
  by apply validateForm_title.
Qed.

(** X15.  What a valid form sends, the server accepts: for a form that
    passes [validateForm] and whose priority is one of the three options,
    [createTask] sends the POST, and a POST with that body and an unused key
    is answered 201.  The stored task has the trimmed title and the trimmed
    description of the form (an empty one stays empty: the placeholder is
    for a missing description only), the priority chosen, and is not
    completed. *)
Theorem X15_valid_form_accepted (now : Z) (oid : ObjectId) (c : collection)
  (f : TaskForm.FormData) (p : Priority) :
  TaskForm.validateForm f = true ->
  TaskForm.priority f = priority_name p ->
  no_match oid c ->
  (forall api sent,
     (TaskService.createTask api (TaskForm.dataToSubmit f) sent).2
     = sent ++ [TaskService.POST_tasks (TaskForm.dataToSubmit f)])
  /\ post_task now oid (TaskForm.dataToSubmit f) c =
       (let t := {| _id := oid; title := trim (TaskForm.title f);
                    description := trim (TaskForm.description f);
                    completed := false; priority := p;
                    createdAt := now; updatedAt := now |} in
        ({| status := 201; success := true; count := None;
            message := Some "Task created successfully"%string;
            data := Some (OneTask t); error := None |}, c ++ [t])).
Proof.
  intros Hv Hp Hno. split.
  - intros api sent. by rewrite createTask_valid.
  - cbn zeta. apply post_task_created, create_Return.
    exists (trim (TaskForm.title f)), p.
    cbn [TaskForm.dataToSubmit body_title body_description body_completed
         body_priority default].
    rewrite !trim_idempotent, Hp, parse_priority_of_name.
    repeat split; try done.
    by apply validateForm_title.
Qed.

Lemma X15_valid_form_accepted_witness :
  status (post_task 100 7%N
            (TaskForm.dataToSubmit
               {| TaskForm.title := str " Buy milk "; TaskForm.description := [];
                  TaskForm.priority := str "high" |}) []).1 = 201.
Proof.
  destruct (X15_valid_form_accepted 100 7%N []
              {| TaskForm.title := str " Buy milk "; TaskForm.description := [];
                 TaskForm.priority := str "high" |} high) as [_ Hpost].
  - reflexivity.
  - reflexivity.
  - intros t Hin. by apply elem_of_nil in Hin.
  - rewrite Hpost. reflexivity.
Defined.

(** X16.  Editing without changes changes nothing but [updatedAt]: when the
    form is populated from a stored task (title and description trimmed, as
    the schema stores them) and submitted as it is, the PUT answers 200 with
    the same task, [updatedAt] apart.  The form accepts such a submission
    exactly when the stored title has 3 to 100 characters and the stored
    description at most 250. *)
Theorem X16_edit_unchanged (castObjectId : jsstring -> option ObjectId)
  (now : Z) (id : jsstring) (c : collection) (t : Task) (f : TaskForm.FormState) :
  castObjectId id = Some (_id t) -> lookup_id (_id t) c = Some t -> stored_ok t ->
  let populated := TaskForm.formData (TaskForm.populate (Some t) true f) in
  let t' := {| _id := _id t; title := title t; description := description t;
               completed := completed t; priority := priority t;
               createdAt := createdAt t; updatedAt := now |} in
  put_task castObjectId now id (TaskForm.dataToSubmit populated) c =
    ({| status := 200; success := true; count := None;
        message := Some "Task updated successfully"%string;
        data := Some (OneTask t'); error := None |}, replace_id (_id t) t' c)
  /\ (TaskForm.validateForm populated = true <->
        (3 <= length (title t) <= 100)%nat /\ (length (description t) <= 250)%nat).
Proof.
  intros Hk Hl (Hne & Ht & Hd) populated t'. split.
  - assert (Hfind : findByIdAndUpdate castObjectId now id
                      (TaskForm.dataToSubmit populated) c
                    = Return (Some t', replace_id (_id t) t' c)).
    { apply findByIdAndUpdate_Some. exists (_id t), t, (priority t).
      split; [done|]. split; [done|]. split.
      - apply update_valid_iff. cbn -[trim parse_priority priority_name]. split.
        + intros s [= <-]. by rewrite !Ht.
        + intros raw [= <-]. exists (priority t). apply parse_priority_of_name.
      - cbn -[trim parse_priority priority_name].
        rewrite !Ht, !Hd, parse_priority_of_name. by repeat split. }
    unfold put_task. by rewrite Hfind.
  - unfold TaskForm.validateForm, TaskForm.newErrors, populated.
    cbn -[trim Nat.ltb]. rewrite Ht.
    destruct (bool_decide (title t = [])) eqn:Hb;
      [by apply bool_decide_eq_true in Hb|].
    destruct (Nat.ltb_spec (length (title t)) 3); [split; [done|lia]|].
    destruct (Nat.ltb_spec 100 (length (title t))); [split; [done|lia]|].
    destruct (Nat.ltb_spec 250 (length (description t))); [split; [done|lia]|].
    split; [lia|done].
Qed.

Lemma X16_edit_unchanged_witness :
  let t := mkTask 7%N (str "Buy milk") (str "default value") false medium 100 100 in
  status (put_task castObjectId_hex24 200 (str "000000000000000000000007")
            (TaskForm.dataToSubmit
               (TaskForm.formData
                  (TaskForm.populate (Some t) true TaskForm.initialState))) [t]).1
  = 200.
Proof.
  intros t.
  destruct (X16_edit_unchanged castObjectId_hex24 200
              (str "000000000000000000000007") [t] t TaskForm.initialState)
    as [Hput _].
  - reflexivity.
  - reflexivity.
  - unfold stored_ok. cbn. by repeat split.
  - rewrite Hput. reflexivity.
Defined.

(** ** The API functions and the handlers of [App] *)

Lemma createTask_missing api taskData sent :
  title_missing (body_title taskData) ->
  TaskService.createTask api taskData sent
  = (Throw (Error "Task title is required"), sent).
Proof.
  unfold TaskService.createTask, title_missing.
  destruct (body_title taskData) as [t|]; [|done]. intros Hb.
  assert (bool_decide (t = []) || bool_decide (trim t = []) = true) as ->; [|done].
  apply orb_true_iff. right. by apply bool_decide_eq_true, trim_blank.
Qed.

Lemma createTask_present api taskData sent :
  ~ title_missing (body_title taskData) ->
  TaskService.createTask api taskData sent
  = (api (TaskService.POST_tasks taskData), sent ++ [TaskService.POST_tasks taskData]).
Proof.
  unfold TaskService.createTask, title_missing.
  destruct (body_title taskData) as [t|]; [|done]. intros Hb.
  assert (t <> []) by (intros ->; apply Hb, Forall_nil_2).
  assert (trim t <> []) by (intros Ht; by apply Hb, trim_nil_blank).
  by rewrite !bool_decide_eq_false_2.
Qed.

Lemma title_missing_dec t : Decision (title_missing t).
Proof. destruct t; simpl; apply _. Defined.

(** X17.  [createTask] sends a POST exactly when the title has a character
    that is not white space; then it sends that one request with the data
    untouched and yields what the request yields.  With a title that is
    missing, empty or white space it sends nothing and throws
    "Task title is required". *)
Theorem X17_createTask_guard (api : TaskService.Transport) (taskData : Body)
  (sent : list TaskService.Request) :
  (title_missing (body_title taskData) ->
     TaskService.createTask api taskData sent
     = (Throw (Error "Task title is required"), sent))
  /\ (~ title_missing (body_title taskData) ->
        TaskService.createTask api taskData sent
        = (api (TaskService.POST_tasks taskData),
           sent ++ [TaskService.POST_tasks taskData])).
Proof. split; [apply createTask_missing | apply createTask_present]. Qed.

(** X18.  The handlers of [App] keep every failure inside: creating,
    updating and deleting never throw, and when the request fails (or, for
    a creation, is not sent because the title is missing) the task list and
    the task being edited stay as they were and the error banner gets its
    text.  [fetchTasks] ends with the loading flag off in both cases,
    replaces the list on success and keeps it on failure. *)
Theorem X18_failures_keep_state (api : TaskService.Transport)
  (api_delete : ObjectId -> completion Task) (api_get : completion (list Task))
  (taskData : Body) (taskId : ObjectId) (s : App.State) :
  (App.handleCreateTask api taskData s).1 = Return tt
  /\ (App.handleUpdateTask api taskId taskData s).1 = Return tt
  /\ (App.handleDeleteTask api_delete taskId s).1 = Return tt
  /\ (forall e, (title_missing (body_title taskData)
                 \/ api (TaskService.POST_tasks taskData) = Throw e) ->
        let s' := (App.handleCreateTask api taskData s).2 in
        App.tasks s' = App.tasks s /\ App.editingTask s' = App.editingTask s
        /\ App.error s' = "Failed to create task. Please try again."%string)
  /\ (forall e, api (TaskService.PUT_tasks taskId taskData) = Throw e ->
        let s' := (App.handleUpdateTask api taskId taskData s).2 in
        App.tasks s' = App.tasks s /\ App.editingTask s' = App.editingTask s
        /\ App.error s' = "Failed to update task. Please try again."%string)
  /\ (forall e, api_delete taskId = Throw e ->
        let s' := (App.handleDeleteTask api_delete taskId s).2 in
        App.tasks s' = App.tasks s /\ App.editingTask s' = App.editingTask s
        /\ App.error s' = "Failed to delete task. Please try again."%string)
  /\ App.loading (App.fetchTasks api_get s) = false
  /\ match api_get with
     | Return fetched =>
         App.tasks (App.fetchTasks api_get s) = fetched
         /\ App.error (App.fetchTasks api_get s) = ""%string
     | Throw _ =>
         App.tasks (App.fetchTasks api_get s) = App.tasks s
         /\ App.error (App.fetchTasks api_get s)
            = "Failed to load tasks. Please try again."%string
     end.
Proof.
  split; [|split; [|split; [|split; [|split; [|split; [|split]]]]]].
  - unfold App.handleCreateTask.
    by destruct (TaskService.createTask _ _ _) as [[?|?] ?].
  - unfold App.handleUpdateTask.
    by destruct (TaskService.updateTask _ _ _ _) as [[?|?] ?].
  - unfold App.handleDeleteTask. by destruct (TaskService.deleteTask _ _).
  - intros e H. unfold App.handleCreateTask.
    destruct (title_missing_dec (body_title taskData)) as [Hm|Hm].
    + by rewrite createTask_missing.
    + rewrite createTask_present by done. destruct H as [H|H]; [done|].
      by rewrite H.
  - intros e H. unfold App.handleUpdateTask, TaskService.updateTask.
    by rewrite H.
  - intros e H. unfold App.handleDeleteTask, TaskService.deleteTask.
    by rewrite H.
  - unfold App.fetchTasks. by destruct (TaskService.getAllTasks api_get).
  - unfold App.fetchTasks, TaskService.getAllTasks. by destruct api_get.
Qed.

Lemma patch_other taskId updatedTask l :
  no_match taskId l -> map (patch taskId updatedTask) l = l.
Proof.
  induction l as [|t l IH]; intros Hno; simpl; [done|].
  unfold patch at 1. rewrite (proj2 (N.eqb_neq _ _)) by (apply Hno; by left).
  rewrite IH; [done|]. intros u Hu. apply Hno. by right.
Qed.

(** X19.  A successful update replaces, in place, the tasks of the list
    that have the key of the request by the task the server returned: the
    list keeps its length, every task with another key keeps its place, and
    when no task of the list has the key (it was deleted meanwhile) the list
    is left as it was.  The update ends the edit in progress, whichever task
    it was for, and clears the error. *)
Theorem X19_update_replaces_in_place (api : TaskService.Transport)
  (taskId : ObjectId) (taskData : Body) (updatedTask : Task) (s : App.State) :
  api (TaskService.PUT_tasks taskId taskData) = Return updatedTask ->
  let s' := (App.handleUpdateTask api taskId taskData s).2 in
  App.tasks s' = map (patch taskId updatedTask) (App.tasks s)
  /\ length (App.tasks s') = length (App.tasks s)
  /\ (forall i t, App.tasks s !! i = Some t ->
        App.tasks s' !! i = Some (if (_id t =? taskId)%N then updatedTask else t))
  /\ (no_match taskId (App.tasks s) -> App.tasks s' = App.tasks s)
  /\ App.editingTask s' = None
  /\ App.error s' = ""%string
  /\ App.sent s' = App.sent s ++ [TaskService.PUT_tasks taskId taskData].
Proof.
  intros Hapi s'. unfold s', App.handleUpdateTask, TaskService.updateTask.
  rewrite Hapi. cbn.
  change (map _ (App.tasks s)) with (map (patch taskId updatedTask) (App.tasks s)).
  repeat split.
  - by rewrite length_map.
  - intros i t Hi. change (map ?f ?l) with (f <$> l).
    rewrite list_lookup_fmap, Hi. reflexivity.
  - apply patch_other.
Qed.

Lemma X19_update_replaces_in_place_witness :
  let t := mkTask 7%N (str "Buy milk") (str "default value") false medium 100 100 in
  let u := mkTask 8%N (str "Buy bread") (str "default value") false low 150 150 in
  let t' := mkTask 7%N (str "Buy milk") (str "default value") true medium 100 200 in
  let s := {| App.tasks := [u; t]; App.loading := false; App.error := ""%string;
              App.editingTask := Some u; App.sent := [] |} in
  let toggled := {| body_title := None; body_description := None;
                    body_completed := Some true; body_priority := None |} in
  App.tasks (App.handleUpdateTask (fun _ => Return t') 7%N toggled s).2
    = map (patch 7%N t') [u; t]
  /\ App.editingTask (App.handleUpdateTask (fun _ => Return t') 7%N toggled s).2 = None.
Proof.
  intros t u t' s toggled.
  destruct (X19_update_replaces_in_place (fun _ => Return t') 7%N toggled t' s eq_refl)
    as (Htasks & _ & _ & _ & Hedit & _).
  split; [exact Htasks | exact Hedit].
Defined.

(** X20.  Toggling completion is an update that carries [completed] alone:
    one PUT for the key is sent with no other field, the toggle never
    throws, and its effect on the state is that of [handleUpdateTask].  In
    particular a successful toggle ends the edit in progress, even when
    another task is being edited, and the form, rendered again, is reset to
    its empty state. *)
Theorem X20_toggle_is_update (api : TaskService.Transport) (taskId : ObjectId)
  (flag : bool) (s : App.State) :
  let toggled := {| body_title := None; body_description := None;
                    body_completed := Some flag; body_priority := None |} in
  let s' := (App.handleToggleComplete api taskId flag s).2 in
  App.handleToggleComplete api taskId flag s = (Return tt, s')
  /\ s' = (App.handleUpdateTask api taskId toggled s).2
  /\ App.sent s' = App.sent s ++ [TaskService.PUT_tasks taskId toggled]
  /\ (forall updatedTask edited f,
        api (TaskService.PUT_tasks taskId toggled) = Return updatedTask ->
        App.editingTask s = Some edited ->
        App.editingTask s' = None
        /\ TaskForm.formData
             (TaskForm.rerender (App.initialData s, App.isEditing s)
                                (App.initialData s', App.isEditing s') f)
           = TaskForm.emptyForm).
Proof.
  intros toggled s'. unfold s', App.handleToggleComplete.
  fold toggled.
  destruct (App.handleUpdateTask api taskId toggled s) as [[[]|e] s1] eqn:Hup;
    cbn [fst snd].
  all: assert (Hs1 : s1 = (App.handleUpdateTask api taskId toggled s).2)
         by (by rewrite Hup).
  all: split; [done|]; split; [done|].
  all: split;
    [rewrite Hs1; unfold App.handleUpdateTask, TaskService.updateTask;
     by destruct (api _)|].
  all: intros updatedTask edited f Hapi Hed;
    rewrite Hs1; unfold App.handleUpdateTask, TaskService.updateTask;
    rewrite Hapi; cbn; unfold App.initialData, App.isEditing; rewrite Hed; cbn;
    done.
Qed.

(** X21.  A successful delete removes from the list every task with the
    key of the request and keeps the others in their order, so that no task
    with that key is left; the error is cleared.  The task being edited is
    not touched, even when it is the task deleted. *)
Theorem X21_delete_filters (api_delete : ObjectId -> completion Task)
  (taskId : ObjectId) (removed : Task) (s : App.State) :
  api_delete taskId = Return removed ->
  let s' := (App.handleDeleteTask api_delete taskId s).2 in
  App.tasks s' = List.filter (fun task => negb (_id task =? taskId)%N) (App.tasks s)
  /\ no_match taskId (App.tasks s')
  /\ (forall t, _id t <> taskId -> t ∈ App.tasks s' <-> t ∈ App.tasks s)
  /\ App.editingTask s' = App.editingTask s
  /\ App.error s' = ""%string
  /\ App.sent s' = App.sent s.
Proof.
  intros Hapi s'. unfold s', App.handleDeleteTask, TaskService.deleteTask.
  rewrite Hapi. cbn. repeat split.
  - intros t Hin Hid. apply list_elem_of_In, filter_In in Hin as [_ Hin].
    apply negb_true_iff, N.eqb_neq in Hin. done.
  - intros Hin. apply list_elem_of_In, filter_In in Hin as [Hin _].
    by apply list_elem_of_In.
  - intros Hin. apply list_elem_of_In, filter_In. split; [by apply list_elem_of_In|].
    by apply negb_true_iff, N.eqb_neq.
Qed.

Lemma X21_delete_filters_witness :
  let t := mkTask 7%N (str "Buy milk") (str "default value") false medium 100 100 in
  let u := mkTask 8%N (str "Buy bread") (str "default value") false low 150 150 in
  let s := {| App.tasks := [u; t]; App.loading := false; App.error := ""%string;
              App.editingTask := Some t; App.sent := [] |} in
  no_match 7%N (App.tasks (App.handleDeleteTask (fun _ => Return t) 7%N s).2)
  /\ App.editingTask (App.handleDeleteTask (fun _ => Return t) 7%N s).2 = Some t.
Proof.
  intros t u s.
  destruct (X21_delete_filters (fun _ => Return t) 7%N t s eq_refl)
    as (_ & Hno & _ & Hedit & _).
  split; [exact Hno | exact Hedit].
Defined.

(** ** The local patches and the list of the server *)

Lemma listing_spec c : listing c ≡ₚ c /\ StronglySorted newer_first (listing c).
Proof. apply find_sort_spec. Qed.

Lemma sorted_listing_unique l c :
  StronglySorted newer_first l -> l ≡ₚ c -> distinct_times c -> l = listing c.
Proof.
  intros Hs Hp Hd. destruct (listing_spec c) as [Hpc Hsc].
  apply (StronglySorted_unique_strong newer_first); [|done|done|by rewrite Hp, Hpc].
  intros x1 x2 H1 H2 H12 H21. apply Hd.
  - by rewrite <- Hp.
  - by rewrite <- Hpc.
  - unfold newer_first in *. lia.
Qed.

Lemma filter_keep_all {A} (f : A -> bool) l :
  (forall x, x ∈ l -> f x = true) -> List.filter f l = l.
Proof.
  induction l as [|x l IH]; intros H; simpl; [done|].
  rewrite (H x) by (by left). rewrite IH; [done|]. intros y Hy. apply H. by right.
Qed.

Lemma unique_ids_tail t c : unique_ids (t :: c) -> unique_ids c.
Proof. unfold unique_ids. rewrite fmap_cons, NoDup_cons. tauto. Qed.

Lemma remove_id_filter k c :
  unique_ids c ->
  remove_id k c = List.filter (fun task => negb (_id task =? k)%N) c.
Proof.
  induction c as [|t c IH]; intros Hu; simpl; [done|].
  change (_id t =? k)%N with (has_id k t).
  destruct (has_id k t) eqn:Ht; simpl.
  - apply has_id_true in Ht. subst k. symmetry. apply filter_keep_all.
    intros u Hu'. apply negb_true_iff, N.eqb_neq.
    by apply (unique_ids_no_match t c Hu).
  - f_equal. apply IH. by eapply unique_ids_tail.
Qed.

Lemma replace_id_map k t' c :
  unique_ids c -> replace_id k t' c = map (patch k t') c.
Proof.
  induction c as [|t c IH]; intros Hu; simpl; [done|].
  unfold patch at 1. change (_id t =? k)%N with (has_id k t).
  destruct (has_id k t) eqn:Ht.
  - apply has_id_true in Ht. subst k. f_equal. symmetry.
    apply patch_other, (unique_ids_no_match t c Hu).
  - f_equal. apply IH. by eapply unique_ids_tail.
Qed.

(** X22.  Putting the new task in front of the list is what a new fetch
    would give: when the list held by [App] is the list of the server, no
    two tasks share a creation time and the clock has moved past all of
    them, then after a POST answered with the new task the list of
    [handleCreateTask] is the list GET /api/tasks answers with. *)
Theorem X22_create_patch_is_refetch (api : TaskService.Transport) (now : Z)
  (oid : ObjectId) (b : Body) (c : collection) (s : App.State) (t : Task) :
  App.tasks s = listing c ->
  distinct_times c ->
  (forall u, u ∈ c -> createdAt u < now) ->
  data (post_task now oid b c).1 = Some (OneTask t) ->
  api (TaskService.POST_tasks b) = Return t ->
  App.tasks (App.handleCreateTask api b s).2 = listing (post_task now oid b c).2
  /\ data (get_tasks (post_task now oid b c).2).1
     = Some (Tasks (App.tasks (App.handleCreateTask api b s).2)).
Proof.
  intros Hsync Hd Hnow Hdata Hapi.
  destruct (post_task_cases now oid b c) as [(t0 & Hc & Hp)|(e & _ & Hp)];
    rewrite Hp in Hdata |- *; cbn [fst snd data] in *; [|done].
  injection Hdata as ->.
  apply create_Return in Hc as (s0 & p & Hs0 & Htrim & _ & _ & Ht & _).
  assert (Htime : createdAt t = now) by (by subst t).
  assert (Hpresent : ~ title_missing (body_title b)).
  { rewrite Hs0. simpl. intros Hb. by apply Htrim, trim_blank. }
  assert (Htasks : App.tasks (App.handleCreateTask api b s).2 = t :: listing c).
  { unfold App.handleCreateTask. rewrite createTask_present by done.
    rewrite Hapi. cbn. by rewrite Hsync. }
  destruct (listing_spec c) as [Hpc Hsc].
  assert (Heq : t :: listing c = listing (c ++ [t])).
  { apply sorted_listing_unique.
    - constructor; [done|]. apply Forall_forall. intros u Hu.
      rewrite Hpc in Hu. unfold newer_first. specialize (Hnow u Hu). lia.
    - rewrite Hpc. apply Permutation_cons_append.
    - intros x y Hx Hy Hxy.
      apply elem_of_app in Hx as [Hx|Hx], Hy as [Hy|Hy];
        rewrite ?list_elem_of_singleton in *; subst.
      + by apply Hd.
      + specialize (Hnow x Hx). lia.
      + specialize (Hnow y Hy). lia.
      + done. }
  rewrite Htasks, Heq. done.
Qed.

Lemma X22_create_patch_is_refetch_witness :
  let u := mkTask 8%N (str "Buy bread") (str "default value") false low 150 150 in
  let t := mkTask 7%N (str "Buy milk") (str "default value") false medium 200 200 in
  let b := {| body_title := Some (str "Buy milk"); body_description := None;
              body_completed := None; body_priority := None |} in
  let s := {| App.tasks := [u]; App.loading := false; App.error := ""%string;
              App.editingTask := None; App.sent := [] |} in
  App.tasks (App.handleCreateTask (fun _ => Return t) b s).2
  = listing (post_task 200 7%N b [u]).2.
Proof.
  intros u t b s.
  apply (X22_create_patch_is_refetch (fun _ => Return t) 200 7%N b [u] s t).
  - reflexivity.
  - intros x y Hx Hy _. apply list_elem_of_singleton in Hx, Hy. congruence.
  - intros x Hx. apply list_elem_of_singleton in Hx. by subst x.
  - reflexivity.
  - reflexivity.
Defined.

Lemma lookup_id_unique c x : unique_ids c -> x ∈ c -> lookup_id (_id x) c = Some x.
Proof.
  induction c as [|t c IH]; intros Hu Hx; [by apply elem_of_nil in Hx|].
  unfold lookup_id. simpl. apply elem_of_cons in Hx as [->|Hx].
  - by rewrite (proj2 (has_id_true (_id t) t)).
  - rewrite (proj2 (has_id_false (_id x) t)).
    + apply IH; [by eapply unique_ids_tail|done].
    + intros Heq. by apply (unique_ids_no_match t c Hu x Hx).
Qed.

Lemma sorted_map_same_times (f : Task -> Task) l :
  (forall x, x ∈ l -> createdAt (f x) = createdAt x) ->
  StronglySorted newer_first l -> StronglySorted newer_first (map f l).
Proof.
  intros Hf Hs. induction Hs as [|x l Hl IH Hx]; simpl; [constructor|].
  constructor.
  - apply IH. intros y Hy. apply Hf. by right.
  - apply Forall_forall. intros y Hy.
    apply list_elem_of_In, in_map_iff in Hy as (z & <- & Hz).
    apply list_elem_of_In in Hz. rewrite Forall_forall in Hx.
    unfold newer_first in *. rewrite (Hf x) by (by left).
    rewrite (Hf z) by (by right). by apply Hx.
Qed.

(** X23.  Dropping the deleted task from the list is what a new fetch would
    give: when the list held by [App] is the list of the server, keys are
    unique and no two tasks share a creation time, then after a DELETE that
    succeeded the list of [handleDeleteTask] is the list GET /api/tasks
    answers with. *)
Theorem X23_delete_patch_is_refetch (castObjectId : jsstring -> option ObjectId)
  (api_delete : ObjectId -> completion Task) (id : jsstring) (k : ObjectId)
  (c : collection) (s : App.State) (removed : Task) :
  App.tasks s = listing c -> unique_ids c -> distinct_times c ->
  castObjectId id = Some k ->
  api_delete k = Return removed ->
  App.tasks (App.handleDeleteTask api_delete k s).2
  = listing (delete_task castObjectId id c).2.
Proof.
  intros Hsync Hu Hd Hk Hapi.
  assert (Hc' : (delete_task castObjectId id c).2
                = List.filter (fun task => negb (_id task =? k)%N) c).
  { unfold delete_task, findByIdAndDelete, castId. rewrite Hk. cbn [bind].
    destruct (lookup_id k c) as [t|] eqn:Hl; cbn [snd].
    - by apply remove_id_filter.
    - symmetry. apply filter_keep_all. intros x Hx.
      apply negb_true_iff, N.eqb_neq. by apply (proj1 (lookup_id_None k c) Hl). }
  rewrite Hc'. unfold App.handleDeleteTask, TaskService.deleteTask.
  rewrite Hapi. cbn. rewrite Hsync.
  destruct (listing_spec c) as [Hpc Hsc].
  apply sorted_listing_unique.
  - by apply filter_sorted.
  - by apply List_filter_Permutation.
  - intros x y Hx Hy. apply Hd.
    + apply list_elem_of_In, filter_In in Hx as [Hx _]. by apply list_elem_of_In.
    + apply list_elem_of_In, filter_In in Hy as [Hy _]. by apply list_elem_of_In.
Qed.

Lemma X23_delete_patch_is_refetch_witness :
  let t := mkTask 7%N (str "Buy milk") (str "default value") false medium 100 100 in
  let u := mkTask 8%N (str "Buy bread") (str "default value") false low 150 150 in
  let s := {| App.tasks := [u; t]; App.loading := false; App.error := ""%string;
              App.editingTask := None; App.sent := [] |} in
  App.tasks (App.handleDeleteTask (fun _ => Return t) 7%N s).2
  = listing (delete_task castObjectId_hex24 (str "000000000000000000000007") [t; u]).2.
Proof.
  intros t u s.
  apply (X23_delete_patch_is_refetch castObjectId_hex24 (fun _ => Return t)
           (str "000000000000000000000007") 7%N [t; u] s t).
  - reflexivity.
  - unfold unique_ids. cbn. apply NoDup_cons. split; [|apply NoDup_singleton].
    rewrite list_elem_of_singleton. discriminate.
  - intros x y Hx Hy.
    rewrite !elem_of_cons, elem_of_nil in Hx, Hy.
    destruct Hx as [->|[->|[]]], Hy as [->|[->|[]]]; cbn; congruence.
  - reflexivity.
  - reflexivity.
Defined.

(** X24.  Replacing the updated task in place is what a new fetch would
    give: when the list held by [App] is the list of the server, keys are
    unique and no two tasks share a creation time, then after a PUT answered
    with the updated task the list of [handleUpdateTask] is the list
    GET /api/tasks answers with. *)
Theorem X24_update_patch_is_refetch (castObjectId : jsstring -> option ObjectId)
  (api : TaskService.Transport) (now : Z) (id : jsstring) (k : ObjectId)
  (b : Body) (c : collection) (s : App.State) (t' : Task) :
  App.tasks s = listing c -> unique_ids c -> distinct_times c ->
  castObjectId id = Some k ->
  data (put_task castObjectId now id b c).1 = Some (OneTask t') ->
  api (TaskService.PUT_tasks k b) = Return t' ->
  App.tasks (App.handleUpdateTask api k b s).2
  = listing (put_task castObjectId now id b c).2.
Proof.
  intros Hsync Hu Hd Hk Hdata Hapi.
  unfold put_task in Hdata |- *.
  destruct (findByIdAndUpdate castObjectId now id b c) as [[[u|] c']|e] eqn:Hf;
    cbn [fst snd data] in *; try done.
  injection Hdata as ->.
  apply findByIdAndUpdate_Some in Hf as (k' & t & p & Hk' & Hl & _ & _ & Ht' & ->).
  assert (k' = k) as -> by congruence.
  assert (Htime : forall x, x ∈ c -> createdAt (patch k t' x) = createdAt x).
  { intros x Hx. unfold patch. destruct (N.eqb_spec (_id x) k) as [Hid|]; [|done].
    pose proof (lookup_id_unique c x Hu Hx) as Hx'. rewrite Hid, Hl in Hx'.
    injection Hx' as <-. by subst t'. }
  rewrite (replace_id_map k t' c Hu).
  unfold App.handleUpdateTask, TaskService.updateTask. rewrite Hapi. cbn.
  change (map _ (App.tasks s)) with (map (patch k t') (App.tasks s)).
  rewrite Hsync. destruct (listing_spec c) as [Hpc Hsc].
  apply sorted_listing_unique.
  - apply sorted_map_same_times; [|done]. intros x Hx. apply Htime. by rewrite <- Hpc.
  - by apply Permutation_map.
  - intros x y Hx Hy Hxy.
    apply list_elem_of_In, in_map_iff in Hx as (a & <- & Ha).
    apply list_elem_of_In, in_map_iff in Hy as (a' & <- & Ha').
    apply list_elem_of_In in Ha, Ha'.
    rewrite !Htime in Hxy by done. by rewrite (Hd a a' Ha Ha' Hxy).
Qed.

Lemma X24_update_patch_is_refetch_witness :
  let t := mkTask 7%N (str "Buy milk") (str "default value") false medium 100 100 in
  let u := mkTask 8%N (str "Buy bread") (str "default value") false low 150 150 in
  let t' := mkTask 7%N (str "Buy milk") (str "default value") true medium 100 200 in
  let b := {| body_title := None; body_description := None;
              body_completed := Some true; body_priority := None |} in
  let s := {| App.tasks := [u; t]; App.loading := false; App.error := ""%string;
              App.editingTask := None; App.sent := [] |} in
  App.tasks (App.handleUpdateTask (fun _ => Return t') 7%N b s).2
  = listing (put_task castObjectId_hex24 200 (str "000000000000000000000007")
               b [t; u]).2.
Proof.
  intros t u t' b s.
  apply (X24_update_patch_is_refetch castObjectId_hex24 (fun _ => Return t') 200
           (str "000000000000000000000007") 7%N b [t; u] s t').
  - reflexivity.
  - unfold unique_ids. cbn. apply NoDup_cons. split; [|apply NoDup_singleton].
    rewrite list_elem_of_singleton. discriminate.
  - intros x y Hx Hy.
    rewrite !elem_of_cons, elem_of_nil in Hx, Hy.
    destruct Hx as [->|[->|[]]], Hy as [->|[->|[]]]; cbn; congruence.
  - reflexivity.
  - reflexivity.
  - reflexivity.
Defined.

(** ** The loading marks of the list *)

(** X25.  A delete the user does not confirm does nothing: the marks and
    the state of the parent stay as they were, whatever [onDelete] is.  A
    confirmed delete and a toggle act on the parent as [onDelete] and
    [onToggleComplete] do, and when they are done the task is not marked as
    loading (even if it was before) while every other mark is as it was. *)
Theorem X25_loading_marks {W : Type}
  (onDelete : ObjectId -> W -> completion unit * W)
  (onToggleComplete : ObjectId -> bool -> W -> completion unit * W)
  (taskId : ObjectId) (flag : bool) (loadingTasks : gset ObjectId) (w : W) :
  TaskList.handleDelete false onDelete taskId loadingTasks w = (loadingTasks, w)
  /\ (TaskList.handleDelete true onDelete taskId loadingTasks w).2
     = (onDelete taskId w).2
  /\ (TaskList.handleToggleComplete onToggleComplete taskId flag loadingTasks w).2
     = (onToggleComplete taskId flag w).2
  /\ (TaskList.handleDelete true onDelete taskId loadingTasks w).1
     = loadingTasks ∖ {[ taskId ]}
  /\ (TaskList.handleToggleComplete onToggleComplete taskId flag loadingTasks w).1
     = loadingTasks ∖ {[ taskId ]}
  /\ (taskId ∉ loadingTasks ∖ {[ taskId ]})
  /\ (forall j, j <> taskId ->
        (j ∈ loadingTasks ∖ {[ taskId ]}) <-> (j ∈ loadingTasks)).
Proof.
  unfold TaskList.handleDelete, TaskList.handleToggleComplete. cbn [negb].
  destruct (onDelete taskId w) as [r1 w1], (onToggleComplete taskId flag w) as [r2 w2].
  cbn [fst snd].
  assert (Hmark : (loadingTasks ∪ {[taskId]}) ∖ {[taskId]} = loadingTasks ∖ {[taskId]}).
  { apply set_eq. intros j. rewrite !elem_of_difference, elem_of_union. tauto. }
  rewrite Hmark. split_and!; try done.
  - rewrite elem_of_difference, elem_of_singleton. tauto.
  - intros j Hj. rewrite elem_of_difference, elem_of_singleton. tauto.
Qed.

(** ** The outcomes of PUT *)

Lemma put_task_status castObjectId now id b c :
  status (put_task castObjectId now id b c).1 =
    match castObjectId id with
    | None => 400
    | Some k =>
        match validateUpdate (castUpdate b) with
        | [] => match lookup_id k c with Some _ => 200 | None => 404 end
        | _ => 400
        end
    end.
Proof.
  unfold put_task, findByIdAndUpdate, castId.
  destruct (castObjectId id) as [k|]; [|done]. cbn [bind].
  destruct (validateUpdate (castUpdate b)) eqn:Hv; [|done].
  destruct (lookup_id k c) as [t|] eqn:Hl; [|done].
  destruct (set_fields_of_valid now b t Hv) as [t' ->]. done.
Qed.

(** X26.  The answer of PUT /api/tasks/:id is decided in this order: 400
    when the id is not a well-formed key or the body fails the update
    validators, that is, gives a title without a character that is not white
    space or a priority other than low, medium and high; otherwise 404 when
    no task has the key; otherwise 200.  Fields the body does not give are
    never validated. *)
Theorem X26_put_task_outcome (castObjectId : jsstring -> option ObjectId)
  (now : Z) (id : jsstring) (b : Body) (c : collection) :
  let valid := (forall s, body_title b = Some s -> ~ blank s)
               /\ (forall raw, body_priority b = Some raw ->
                     exists p, raw = priority_name p) in
  (status (put_task castObjectId now id b c).1 = 400
     <-> castObjectId id = None \/ ~ valid)
  /\ (status (put_task castObjectId now id b c).1 = 404
      <-> exists k, castObjectId id = Some k /\ valid /\ no_match k c)
  /\ (status (put_task castObjectId now id b c).1 = 200
      <-> exists k t, castObjectId id = Some k /\ valid /\ lookup_id k c = Some t).
Proof.
  intros valid.
  assert (Hvalid : valid <-> validateUpdate (castUpdate b) = []).
  { unfold valid. change (validateUpdate (castUpdate b) = []) with (update_valid b).
    rewrite update_valid_iff. split; intros [H1 H2]; split.
    - intros s Hs Ht. by apply (H1 s Hs), trim_nil_blank.
    - intros raw Hraw. destruct (H2 raw Hraw) as [p ->]. exists p.
      apply parse_priority_of_name.
    - intros s Hs Hb. by apply (H1 s Hs), trim_blank.
    - intros raw Hraw. destruct (H2 raw Hraw) as [p Hp]. exists p.
      by apply parse_priority_name. }
  rewrite put_task_status.
  destruct (castObjectId id) as [k|].
  - destruct (validateUpdate (castUpdate b)) as [|e l] eqn:Hv.
    + assert (valid) as Hok by (by apply Hvalid).
      destruct (lookup_id k c) as [t|] eqn:Hl.
      * split; [|split].
        -- split; [done|]. intros [?|Hn]; [done|]. by destruct Hn.
        -- split; [done|]. intros (k' & [= <-] & _ & Hno).
           apply lookup_id_None in Hno. congruence.
        -- split; [|done]. intros _. by exists k, t.
      * split; [|split].
        -- split; [done|]. intros [?|Hn]; [done|]. by destruct Hn.
        -- split; [|done]. intros _. exists k.
           split; [done|]. split; [done|]. by apply lookup_id_None.
        -- split; [done|]. intros (k' & t & [= <-] & _ & Hl'). congruence.
    + assert (~ valid) as Hbad by (intros H; apply Hvalid in H; done).
      split; [|split].
      * split; [by right|done].
      * split; [done|]. intros (k' & _ & H & _). done.
      * split; [done|]. intros (k' & t & _ & H & _). done.
  - split; [|split].
    + split; [by left|done].
    + split; [done|]. by intros (k & ? & _).
    + split; [done|]. by intros (k & t & ? & _).
Qed.

(** ** Entering and leaving the edit mode *)

(** X27.  Choosing for editing a task other than the one being edited
    fills the form with that task's title, description and priority and
    clears the errors of the form; cancelling, whatever was typed meanwhile,
    empties the form and ends the edit.  Neither step sends a request or
    changes the task list. *)
Theorem X27_edit_then_cancel (task : Task) (f typed : TaskForm.FormState)
  (s : App.State) :
  App.editingTask s <> Some task ->
  let s1 := App.handleEditTask task s in
  let f1 := TaskForm.rerender (App.initialData s, App.isEditing s)
                              (App.initialData s1, App.isEditing s1) f in
  let '(f2, s2) := TaskForm.handleCancel (Some App.handleCancelEdit) typed s1 in
  let f3 := TaskForm.rerender (App.initialData s1, App.isEditing s1)
                              (App.initialData s2, App.isEditing s2) f2 in
  TaskForm.formData f1 =
    {| TaskForm.title := title task; TaskForm.description := description task;
       TaskForm.priority := priority_name (priority task) |}
  /\ TaskForm.errors f1 = TaskForm.noErrors
  /\ TaskForm.formData f3 = TaskForm.emptyForm
  /\ TaskForm.errors f3 = TaskForm.noErrors
  /\ App.editingTask s2 = None
  /\ App.tasks s2 = App.tasks s
  /\ App.sent s2 = App.sent s.
Proof.
  intros Hne. cbn -[TaskForm.rerender].
  unfold TaskForm.rerender, App.initialData, App.isEditing,
    App.handleEditTask, App.handleCancelEdit. cbn.
  rewrite decide_False.
  2:{ intros [= H _]. by destruct Hne. }
  rewrite decide_False by done. by cbn.
Qed.

Lemma X27_edit_then_cancel_witness :
  let t := mkTask 7%N (str "Buy milk") (str "default value") false medium 100 100 in
  let s := {| App.tasks := [t]; App.loading := false; App.error := ""%string;
              App.editingTask := None; App.sent := [] |} in
  TaskForm.formData
    (TaskForm.rerender (App.initialData s, App.isEditing s)
       (App.initialData (App.handleEditTask t s),
        App.isEditing (App.handleEditTask t s)) TaskForm.initialState)
  = {| TaskForm.title := str "Buy milk"; TaskForm.description := str "default value";
       TaskForm.priority := str "medium" |}.
Proof.
  intros t s.
  pose proof (X27_edit_then_cancel t TaskForm.initialState TaskForm.initialState s)
    as H.
  cbn -[TaskForm.rerender] in H. apply H. done.
Defined.
